(** * go-scripts: the Transfer Benchmark and the Layout Inspector

    A shallow embedding of the two command-line programs of the repository.
    Both are straight-line orchestration code over external collaborators
    (the storage client, the OpenTelemetry SDK, the clock, the process
    runtime), so the embedding is a state monad with early termination:

    - every collaborator call is appended to a time-stamped call log;
    - what a fallible call answers, and how long any call takes, is decided
      by an environment [Env] indexed by the position of the call in the
      log, so that the theorems quantify over every behaviour of the
      collaborators;
    - [log.Fatal*] ends the process through [os.Exit 1], which skips the
      deferred calls of every frame; a nil dereference panics. *)

From Stdlib Require Import ZArith List String Bool Lia.
Import ListNotations.
Open Scope string_scope.
Open Scope Z_scope.

(** ** Go runtime: state passing with [os.Exit] and [panic] *)

Module GoRuntime.

Inductive halt : Type :=
| os_Exit (code : Z)
| panic (msg : string).

Inductive outcome (S A : Type) : Type :=
| Ret (a : A) (s : S)
| Halt (h : halt) (s : S).

Arguments Ret {S A} a s.
Arguments Halt {S A} h s.

Definition M (S A : Type) : Type := S -> outcome S A.

Definition ret {S A} (a : A) : M S A := fun s => Ret a s.

Definition bind {S A B} (m : M S A) (k : A -> M S B) : M S B :=
  fun s => match m s with
           | Ret a s' => k a s'
           | Halt h s' => Halt h s'
           end.

Definition halt_with {S A} (h : halt) : M S A := fun s => Halt h s.

Definition final {S A} (o : outcome S A) : S :=
  match o with
  | Ret _ s => s
  | Halt _ s => s
  end.

Definition returned {S A} (o : outcome S A) : bool :=
  match o with
  | Ret _ _ => true
  | Halt _ _ => false
  end.

End GoRuntime.

Export GoRuntime.

Declare Scope go_scope.
Delimit Scope go_scope with go.
Notation "x <- m ;; k" := (bind m (fun x => k))
  (at level 61, m at next level, right associativity) : go_scope.
Notation "' p <- m ;; k" := (bind m (fun p => k))
  (at level 61, p pattern, m at next level, right associativity) : go_scope.
Notation "m ;; k" := (bind m (fun _ => k))
  (at level 61, right associativity) : go_scope.

(** ** Errors and durations *)

(** The two sentinel errors [enableTracing] tests with [errors.Is]. *)
Inductive sentinel : Type :=
| ErrPartialResource
| ErrSchemaURLConflict.

(** An error value: a sentinel, an opaque collaborator error, or the result
    of [fmt.Errorf(prefix + "%w", cause)]. *)
Inductive error : Type :=
| ErrSentinel (s : sentinel)
| ErrNew (msg : string)
| Errorf (prefix : string) (cause : error).

Definition sentinel_eqb (a b : sentinel) : bool :=
  match a, b with
  | ErrPartialResource, ErrPartialResource => true
  | ErrSchemaURLConflict, ErrSchemaURLConflict => true
  | _, _ => false
  end.

(** [errors.Is]: follows the [%w] chain down to the wrapped error. *)
Fixpoint errors_Is (e : error) (target : sentinel) : bool :=
  match e with
  | ErrSentinel s => sentinel_eqb s target
  | ErrNew _ => false
  | Errorf _ cause => errors_Is cause target
  end.

(** [time.Duration] is an int64 count of nanoseconds. *)
Module Duration.

Definition min_int64 : Z := - 2 ^ 63.
Definition max_int64 : Z := 2 ^ 63 - 1.

Definition wrap (z : Z) : Z := (z + 2 ^ 63) mod 2 ^ 64 - 2 ^ 63.

(** [d1 + d2] on [time.Duration]: two's complement addition. *)
Definition add (d1 d2 : Z) : Z := wrap (d1 + d2).

(** [t.Sub(u)] saturates at the ends of the int64 range. *)
Definition sub (t u : Z) : Z := Z.max min_int64 (Z.min max_int64 (t - u)).

Definition Second : Z := 1000000000.

End Duration.

(** ** The Transfer Benchmark (src/unnamed/part_000) *)

Module TransferBenchmark.

Local Open Scope go_scope.

(** The command-line flags after [flag.Parse]. *)
Record Config : Type := {
  bucketFlag : string;
  api : string;
  cpuprofile : string;
  addSpans : bool
}.

Definition http1 : string := "http1".
Definition http2 : string := "http2".
Definition dp : string := "grpc-dp".

(** The three ways a [*storage.Client] is built by [getClient]. *)
Inductive Client : Type :=
| ClientGRPC
| ClientHTTP2
| ClientHTTP1.

(** [*storage.ObjectHandle]: [client.Bucket(bucket).Object(objectName)]. *)
Record ObjectHandle : Type := {
  oh_client : Client;
  oh_bucket : string;
  oh_object : string
}.

Definition ObjectName (o : ObjectHandle) : string := oh_object o.

(** A [context.Context] as far as the program uses it: the span it carries. *)
Definition Ctx : Type := option nat.

Definition context_Background : Ctx := None.

Definition KeyValue : Type := (string * string)%type.

(** Values handed to the formatting verbs of [log] and [fmt]. *)
Inductive arg : Type :=
| AErr (e : error)
| ATransport (maxIdleConns maxIdleConnsPerHost : Z)
| ADuration (d : Z).

(** The collaborator calls the program makes. *)
Inductive call : Type :=
| os_Setenv (key value : string)
| storage_NewGRPCClient
| storage_NewClient
| htransport_NewTransport (maxIdleConns maxIdleConnsPerHost : Z)
| storage_NewClient_WithHTTPClient
| texporter_New
| resource_New (serviceName : string)
| sdktrace_NewTracerProvider
| otel_SetTracerProvider
| tp_ForceFlush
| tp_Shutdown
| os_Create (name : string)
| pprof_StartCPUProfile
| pprof_StopCPUProfile
| file_Close
| uuid_New
| tracer_Start (ctx : Ctx) (tracer name : string) (span : nat)
| span_SetAttributes (span : nat) (kvs : list KeyValue)
| span_End (span : nat)
| time_Now
| time_Since
| time_Sleep (d : Z)
| object_NewWriter (ctx : Ctx) (o : ObjectHandle)
| io_CopyN_rand (n : Z)
| writer_Close
| object_NewRangeReader (ctx : Ctx) (o : ObjectHandle) (offset length : Z)
| io_CopyN_Discard (n : Z)
| reader_Close
| log_Output (format : string) (args : list arg)
| fmt_Printf (format : string) (args : list arg).

(** One line of the call log: when the call was entered, which call, and the
    error it answered (always [None] for a call that cannot fail). *)
Record entry : Type := {
  at_time : Z;
  what : call;
  failed : option error
}.

(** A span of the OpenTelemetry SDK. *)
Record Span : Type := {
  span_tracer : string;
  span_name : string;
  span_parent : Ctx;
  span_attrs : list KeyValue;
  span_ended : bool
}.

(** The world the process runs in. [rtrace] is the call log, newest first;
    [spans] is the SDK's heap of span objects, newest first, addressed by
    the identifier [tracer_Start] hands out; [exported] collects a snapshot
    of every span at the moment it is ended, newest first; [client] is the
    package-level variable of the same name. *)
Record World : Type := {
  clock : Z;
  rtrace : list entry;
  next_span : nat;
  spans : list (nat * Span);
  exported : list Span;
  client : option Client
}.

Definition init_world : World :=
  {| clock := 0; rtrace := []; next_span := O; spans := []; exported := [];
     client := None |}.

Definition events (w : World) : list entry := rev (rtrace w).
Definition calls (w : World) : list call := map what (events w).

(** What the collaborators do: the identifier [uuid.New] draws, the error a
    fallible call answers and the time a call takes, each as a function of
    the position of the call in the log. *)
Record Env : Type := {
  uuid_of : nat -> string;
  err_of : nat -> call -> option error;
  lat_of : nat -> call -> N
}.

(** How long a call lasts by its own contract: [time.Sleep d] pauses for at
    least [d], and returns at once when [d] is not positive. *)
Definition pause (c : call) : Z :=
  match c with
  | time_Sleep d => Z.max 0 d
  | _ => 0
  end.

Section Program.

Variable cfg : Config.
Variable env : Env.

Definition record_call (c : call) (r : option error) (w : World) : World :=
  {| clock := clock w + pause c + Z.of_N (lat_of env (List.length (rtrace w)) c);
     rtrace := {| at_time := clock w; what := c; failed := r |} :: rtrace w;
     next_span := next_span w;
     spans := spans w;
     exported := exported w;
     client := client w |}.

(** A call that can fail: the environment decides. *)
Definition try_call (c : call) : M World (option error) :=
  fun w => let r := err_of env (List.length (rtrace w)) c in
           Ret r (record_call c r w).

(** A call without an error result. *)
Definition do_call (c : call) : M World unit :=
  fun w => Ret tt (record_call c None w).

Definition get_clock : M World Z := fun w => Ret (clock w) w.

(** *** Logging and formatted output

    [log_Output text args] is one line written by package [log]: [text] is
    the format string (or the leading string literal of [log.Fatal]), [args]
    the values printed after it. The [Fatal] functions then call
    [os.Exit(1)]. *)

Definition log_Println (e : error) : M World unit :=
  do_call (log_Output "" [AErr e]).

Definition log_Fatalf {A} (format : string) (a : arg) : M World A :=
  do_call (log_Output format [a]) ;; halt_with (os_Exit 1).

Definition log_Fatalln {A} (msg : string) : M World A :=
  do_call (log_Output msg []) ;; halt_with (os_Exit 1).

Definition log_Fatal {A} (msg : string) (e : error) : M World A :=
  do_call (log_Output msg [AErr e]) ;; halt_with (os_Exit 1).

(** *** The clock, the random source and the package-level client *)

Definition now : M World Z :=
  t <- get_clock ;; do_call time_Now ;; ret t.

Definition since (start : Z) : M World Z :=
  t <- get_clock ;; do_call time_Since ;; ret (Duration.sub t start).

Definition sleep (d : Z) : M World unit := do_call (time_Sleep d).

(** [uuid.New().String()] *)
Definition uuid_NewString : M World string :=
  fun w => Ret (uuid_of env (List.length (rtrace w)))
               (record_call uuid_New None w).

Definition set_client (c : option Client) : M World unit :=
  fun w => Ret tt {| clock := clock w; rtrace := rtrace w;
                     next_span := next_span w; spans := spans w;
                     exported := exported w; client := c |}.

Definition get_client : M World (option Client) :=
  fun w => Ret (client w) w.

(** Using the package-level [client]: a nil pointer panics. *)
Definition deref_client : M World Client :=
  c <- get_client ;;
  match c with
  | Some c' => ret c'
  | None => halt_with (panic "invalid memory address or nil pointer dereference")
  end.

(** *** The OpenTelemetry SDK *)

Fixpoint find_span (id : nat) (h : list (nat * Span)) : option Span :=
  match h with
  | [] => None
  | (i, s) :: h' => if Nat.eqb i id then Some s else find_span id h'
  end.

Fixpoint update_span (id : nat) (f : Span -> Span) (h : list (nat * Span))
  : list (nat * Span) :=
  match h with
  | [] => []
  | (i, s) :: h' =>
      if Nat.eqb i id then (i, f s) :: h' else (i, s) :: update_span id f h'
  end.

Definition add_attrs (kvs : list KeyValue) (s : Span) : Span :=
  {| span_tracer := span_tracer s; span_name := span_name s;
     span_parent := span_parent s; span_attrs := span_attrs s ++ kvs;
     span_ended := span_ended s |}.

Definition end_span (s : Span) : Span :=
  {| span_tracer := span_tracer s; span_name := span_name s;
     span_parent := span_parent s; span_attrs := span_attrs s;
     span_ended := true |}.

Definition with_spans (n : nat) (h : list (nat * Span)) (ex : list Span)
  (w : World) : World :=
  {| clock := clock w; rtrace := rtrace w; next_span := n; spans := h;
     exported := ex; client := client w |}.

(** [otel.GetTracerProvider().Tracer(tracer).Start(ctx, name)]: a new
    recording span whose parent is the span of [ctx]; answers the derived
    context and the span. *)
Definition Tracer_Start (ctx : Ctx) (tracer name : string)
  : M World (Ctx * nat) :=
  fun w =>
    let id := next_span w in
    let s := {| span_tracer := tracer; span_name := name;
                span_parent := ctx; span_attrs := []; span_ended := false |} in
    Ret (Some id, id)
        (with_spans (S id) ((id, s) :: spans w) (exported w)
           (record_call (tracer_Start ctx tracer name id) None w)).

(** [span.SetAttributes] on the heap: ignored once the span has ended. *)
Definition heap_SetAttributes (id : nat) (kvs : list KeyValue)
  (h : list (nat * Span)) : list (nat * Span) :=
  match find_span id h with
  | Some s => if span_ended s then h else update_span id (add_attrs kvs) h
  | None => h
  end.

(** [span.End] on the heap: only the first call ends the span ... *)
Definition heap_End (id : nat) (h : list (nat * Span)) : list (nat * Span) :=
  match find_span id h with
  | Some s => if span_ended s then h else update_span id end_span h
  | None => h
  end.

(** ... and hands a snapshot of it to the exporter. *)
Definition export_End (id : nat) (h : list (nat * Span)) (ex : list Span)
  : list Span :=
  match find_span id h with
  | Some s => if span_ended s then ex else end_span s :: ex
  | None => ex
  end.

Definition SetAttributes (id : nat) (kvs : list KeyValue) : M World unit :=
  fun w =>
    Ret tt (with_spans (next_span w)
              (heap_SetAttributes id kvs (spans w))
              (exported w)
              (record_call (span_SetAttributes id kvs) None w)).

Definition End (id : nat) : M World unit :=
  fun w =>
    Ret tt (with_spans (next_span w)
              (heap_End id (spans w))
              (export_End id (spans w) (exported w))
              (record_call (span_End id) None w)).

(** *** The program *)

Definition getClient (ctx : Ctx) : M World (option Client) :=
  if String.eqb (api cfg) dp then
    err <- try_call (os_Setenv "GOOGLE_CLOUD_ENABLE_DIRECT_PATH_XDS" "true") ;;
    match err with
    | Some e => log_Fatalf "set DP env var: %v" (AErr e)
    | None => ret tt
    end ;;
    err <- try_call storage_NewGRPCClient ;;
    match err with
    | Some e => log_Fatalf "NewGRPCClient: %v" (AErr e)
    | None => ret (Some ClientGRPC)
    end
  else if String.eqb (api cfg) http2 then
    err <- try_call storage_NewClient ;;
    match err with
    | Some e => log_Fatalf "NewClient: %v" (AErr e)
    | None => ret (Some ClientHTTP2)
    end
  else if String.eqb (api cfg) http1 then
    (* base := &http.Transport{MaxIdleConns: 100, MaxIdleConnsPerHost: 100} *)
    err <- try_call (htransport_NewTransport 100 100) ;;
    match err with
    | Some _ => log_Fatalf "creating transport: %v" (ATransport 100 100)
    | None => ret tt
    end ;;
    (* client, err = storage.NewClient(...): assigns the package variable *)
    err <- try_call storage_NewClient_WithHTTPClient ;;
    set_client (match err with Some _ => None | None => Some ClientHTTP1 end) ;;
    match err with
    | Some e => log_Fatalf "NewClient: %v" (AErr e)
    | None => get_client
    end
  else
    log_Fatalln "invalid -api".

(** The teardown closure [enableTracing] returns. *)
Definition teardown (ctx : Ctx) : M World unit :=
  _ <- try_call tp_ForceFlush ;;
  err <- try_call tp_Shutdown ;;
  match err with
  | Some e => log_Fatal "" e
  | None => ret tt
  end.

Definition enableTracing (ctx : Ctx) : M World (M World unit) :=
  err <- try_call texporter_New ;;
  match err with
  | Some e => log_Fatalf "texporter.New: %v" (AErr e)
  | None => ret tt
  end ;;
  err <- try_call (resource_New "my-resource-with-attr") ;;
  match err with
  | Some e =>
      if errors_Is e ErrPartialResource || errors_Is e ErrSchemaURLConflict
      then log_Println e
      else log_Fatalf "resource.New: %v" (AErr e)
  | None => ret tt
  end ;;
  do_call sdktrace_NewTracerProvider ;;
  do_call otel_SetTracerProvider ;;
  ret (teardown ctx).

Definition upload (ctx : Ctx) (withSpan : bool)
  : M World (Z * ObjectHandle * option error) :=
  let bucket := bucketFlag cfg in
  id <- uuid_NewString ;;
  let objectName := "trace" ++ "_" ++ id in
  c <- deref_client ;;
  let o := {| oh_client := c; oh_bucket := bucket; oh_object := objectName |} in
  (* Start span. *)
  '(ctx, span) <-
    (if withSpan then
       '(ctxs, span) <- Tracer_Start ctx "go-ups" "uploada" ;;
       SetAttributes span [("object", objectName); ("mykey", api cfg)] ;;
       (* defer span.End() *)
       ret (ctxs, Some span)
     else ret (ctx, None)) ;;
  (* Start timer. *)
  start <- now ;;
  (* defer func() { runTime = time.Since(start) }() *)
  err <-
    (do_call (object_NewWriter ctx o) ;;
     sleep (Duration.Second * 1) ;;
     cErr <- try_call (io_CopyN_rand (10 * 1024 * 1024)) ;;
     match cErr with
     | Some e =>
         _ <- try_call writer_Close ;;
         ret (Some (Errorf "io.CopyN: " e))
     | None =>
         cErr <- try_call writer_Close ;;
         match cErr with
         | Some e => ret (Some (Errorf "w.Close: " e))
         | None => ret None
         end
     end) ;;
  (* the deferred calls, last registered first *)
  runTime <- since start ;;
  match span with
  | Some s => End s
  | None => ret tt
  end ;;
  ret (runTime, o, err).

Definition download (ctx : Ctx) (o : ObjectHandle) (withSpan : bool)
  : M World (Z * option error) :=
  (* Start span. *)
  '(ctx, outer) <-
    (if withSpan then
       '(ctxs, span) <- Tracer_Start ctx "go-ups" "downloads" ;;
       SetAttributes span [("object", ObjectName o); ("mykey", api cfg)] ;;
       (* defer span.End() *)
       ret (ctxs, Some span)
     else ret (ctx, None)) ;;
  (* Start timer. *)
  start <- now ;;
  (* defer func() { runTime = time.Since(start) }() *)
  err <-
    ('(ctxa, span) <- Tracer_Start ctx "go-downs" "user-span-1" ;;
     let ctx := ctxa in
     SetAttributes span [("object", ObjectName o); ("mykey", api cfg)] ;;
     cErr <- try_call (object_NewRangeReader ctx o 0 (1024 * 1024)) ;;
     match cErr with
     | Some e => ret (Some (Errorf "new reader: " e))
     | None =>
     cErr <- try_call (io_CopyN_Discard 1024) ;;
     match cErr with
     | Some e =>
         _ <- try_call reader_Close ;;
         ret (Some (Errorf "io.Copy: " e))
     | None =>
     End span ;;
     sleep (Duration.Second * 100) ;;
     '(_, spanB) <- Tracer_Start ctx "go-ups" "user-span-2" ;;
     SetAttributes span [("object", ObjectName o); ("mykey", api cfg)] ;;
     cErr <- try_call (io_CopyN_Discard (1024 * 1024 - 1024)) ;;
     match cErr with
     | Some e =>
         _ <- try_call reader_Close ;;
         ret (Some (Errorf "io.Copy: " e))
     | None =>
     End spanB ;;
     sleep (Duration.Second * 5) ;;
     cErr <- try_call reader_Close ;;
     match cErr with
     | Some e => ret (Some (Errorf "e.Close: " e))
     | None => ret None
     end
     end
     end
     end) ;;
  (* the deferred calls, last registered first *)
  runTime <- since start ;;
  match outer with
  | Some s => End s
  | None => ret tt
  end ;;
  ret (runTime, err).

Definition main : M World unit :=
  let ctx := context_Background in
  c <- getClient ctx ;;
  set_client c ;;
  match c with
  | None => log_Fatalln "client is nil"
  | Some _ => ret tt
  end ;;
  close <- enableTracing ctx ;;
  (* defer close() *)
  profiling <-
    (if negb (String.eqb (cpuprofile cfg) "") then
       err <- try_call (os_Create (cpuprofile cfg)) ;;
       match err with
       | Some e => log_Fatal "could not create CPU profile: " e
       | None => ret tt
       end ;;
       (* defer f.Close() *)
       err <- try_call pprof_StartCPUProfile ;;
       match err with
       | Some e => log_Fatal "could not start CPU profile: " e
       | None => ret tt
       end ;;
       (* defer pprof.StopCPUProfile() *)
       ret true
     else ret false) ;;
  '(timetakenU, o, err) <- upload ctx (addSpans cfg) ;;
  match err with
  | Some e => log_Fatalf "upload failed: %v\n" (AErr e)
  | None => ret tt
  end ;;
  let timetakenC := 0 in
  '(timetakenD, err) <- download ctx o (addSpans cfg) ;;
  match err with
  | Some e => log_Fatalf "download failed: %v\n" (AErr e)
  | None => ret tt
  end ;;
  do_call (fmt_Printf "time of all ops: %v\n"
             [ADuration (Duration.add (Duration.add timetakenC timetakenD)
                           timetakenU)]) ;;
  (* the deferred calls, last registered first *)
  (if profiling then
     do_call pprof_StopCPUProfile ;;
     _ <- try_call file_Close ;;
     ret tt
   else ret tt) ;;
  close.

End Program.

(** *** The command line

    [main cfg env] above is [func main] for a command line that
    [flag.Parse] (line 52) accepts, [cfg] being the flag values it leaves.
    [flag.Parse] parses [os.Args] with the [flag.ExitOnError] policy of
    [flag.CommandLine]: when the command line asks for help ([-h],
    [-help]) it ends the process with status 0, and on any other parse
    error with status 2, in both cases before anything else is called. What
    it prints on standard error is not part of the call log. *)




End TransferBenchmark.

(** ** Listing a bucket ([listObjs], src/unnamed/part_000)

    [listObjs] is the one loop of the program. Its iterator is a
    collaborator of its own, with a log of its own next to the call log:
    the world of the benchmark is extended by the [it.Next] calls made so
    far. The loop has no bound in the source, so the model takes the number
    of iterations it may run as [fuel] and answers [None] when the loop is
    still running after that many. *)

Module ObjectListing.

Import TransferBenchmark.
Local Open Scope go_scope.

(** [*storage.ObjectIterator]: [client.Bucket(bucket).Objects(ctx, nil)]. *)
Record ObjectIterator : Type := {
  it_client : Client;
  it_bucket : string;
  it_ctx : Ctx
}.

(** The error [it.Next] answers: nil (with the next object),
    [iterator.Done], or any other error. *)
Inductive next_error : Type :=
| NextNil
| Done
| NextFailed (e : error).

(** One [it.Next] call: when it was entered, on which iterator, and what
    it answered. *)
Record fetch : Type := {
  fetch_time : Z;
  fetch_from : ObjectIterator;
  fetch_answer : next_error
}.

Record ListWorld : Type := {
  base : World;
  fetches : list fetch
}.

(** What the iterator does: its answer and the time it takes, by the number
    of [it.Next] calls made before; and how the verb [%q] prints a string. *)
Record IterEnv : Type := {
  next_of : nat -> next_error;
  next_lat : nat -> N;
  quote_of : string -> string
}.

Definition advance (d : Z) (w : World) : World :=
  {| clock := clock w + d; rtrace := rtrace w; next_span := next_span w;
     spans := spans w; exported := exported w; client := client w |}.

Section Program.

Variable cfg : Config.
Variable env : Env.
Variable ienv : IterEnv.

(** A step of the benchmark's world, taken in the world of the listing. *)
Definition lift {A} (m : M World A) : M ListWorld A :=
  fun lw => match m (base lw) with
            | Ret a w' => Ret a {| base := w'; fetches := fetches lw |}
            | Halt h w' => Halt h {| base := w'; fetches := fetches lw |}
            end.

(** [it.Next()] *)
Definition it_Next (it : ObjectIterator) : M ListWorld next_error :=
  fun lw =>
    let i := List.length (fetches lw) in
    let r := next_of ienv i in
    Ret r {| base := advance (Z.of_N (next_lat ienv i)) (base lw);
             fetches := {| fetch_time := clock (base lw); fetch_from := it;
                           fetch_answer := r |} :: fetches lw |}.

(** The [for] loop of [listObjs]: [Some err] when it has ended. *)
Fixpoint listObjs_loop (fuel : nat) (it : ObjectIterator) (bucket : string)
  : M ListWorld (option (option error)) :=
  match fuel with
  | O => ret None
  | S fuel' =>
      cErr <- it_Next it ;;
      match cErr with
      | Done => ret (Some None)
      | NextFailed e =>
          ret (Some (Some (Errorf ("Bucket(" ++ quote_of ienv bucket
                                   ++ ").Objects: ") e)))
      | NextNil => listObjs_loop fuel' it bucket
      end
  end.

Definition listObjs (fuel : nat) (ctx : Ctx) (withSpan : bool)
  : M ListWorld (option (Z * option error)) :=
  let bucket := bucketFlag cfg in
  (* Start span. *)
  '(ctx, span) <-
    lift (if withSpan then
            '(ctxs, span) <- Tracer_Start env ctx "go-another" "listobjsa" ;;
            SetAttributes env span [("mykey", api cfg)] ;;
            (* defer span.End() *)
            ret (ctxs, Some span)
          else ret (ctx, None)) ;;
  (* Start timer. *)
  start <- lift (now env) ;;
  (* defer func() { runTime = time.Since(start) }() *)
  c <- lift get_client ;;
  match c with
  | None =>
      (* client.Bucket panics; the deferred calls run while it unwinds *)
      lift (since env start) ;;
      lift (match span with
            | Some s => End env s
            | None => ret tt
            end) ;;
      halt_with (panic "invalid memory address or nil pointer dereference")
  | Some c' =>
      let it := {| it_client := c'; it_bucket := bucket; it_ctx := ctx |} in
      ended <- listObjs_loop fuel it bucket ;;
      match ended with
      | None => ret None
      | Some err =>
          (* the deferred calls, last registered first *)
          runTime <- lift (since env start) ;;
          lift (match span with
                | Some s => End env s
                | None => ret tt
                end) ;;
          ret (Some (runTime, err))
      end
  end.

End Program.

End ObjectListing.

(** ** The Layout Inspector (src/fuse_storage_layout/main.go) *)

Module FuseStorageLayout.

Local Open Scope go_scope.

(** [*controlpb.StorageLayout] as the program uses it: a value it prints. *)
Definition StorageLayout : Type := string.

Inductive arg : Type :=
| AErr (e : error)
| AClient
| ALayout (l : StorageLayout).

Inductive call : Type :=
| google_DefaultTokenSource (scope : string)
| control_NewStorageControlClient
| controlClient_GetStorageLayout (name : string)
| fmt_Println (text : string) (args : list arg)
| fmt_Printf (format : string) (args : list arg)
| log_Output (format : string) (args : list arg).

(** The call log, newest first. *)
Definition World : Type := list call.

Definition calls (w : World) : list call := rev w.

Record Env : Type := {
  err_of : nat -> call -> option error;
  layout_of : nat -> StorageLayout
}.

Section Program.

Variable env : Env.

Definition try_call (c : call) : M World (option error) :=
  fun w => Ret (err_of env (List.length w) c) (c :: w).

Definition do_call (c : call) : M World unit :=
  fun w => Ret tt (c :: w).

Definition log_Fatalf {A} (format : string) (e : error) : M World A :=
  do_call (log_Output format [AErr e]) ;; halt_with (os_Exit 1).

(** [controlClient.GetStorageLayout(ctx, req)] *)
Definition GetStorageLayout (name : string)
  : M World (StorageLayout * option error) :=
  fun w => Ret (layout_of env (List.length w),
                err_of env (List.length w) (controlClient_GetStorageLayout name))
               (controlClient_GetStorageLayout name :: w).

Definition main : M World unit :=
  let scope := "https://www.googleapis.com/auth/devstorage.full_control" in
  err <- try_call (google_DefaultTokenSource scope) ;;
  match err with
  | Some e => log_Fatalf "JWTAccessTokenSourceWithScope: %w" e
  | None => ret tt
  end ;;
  err <- try_call control_NewStorageControlClient ;;
  match err with
  | Some e => log_Fatalf "failed to create control client: %v" e
  | None => ret tt
  end ;;
  do_call (fmt_Println "Successfully created control client:" [AClient]) ;;
  let req := "projects/_/buckets/mhall-golang-test/storageLayout" in
  '(layout, err) <- GetStorageLayout req ;;
  match err with
  | Some e => log_Fatalf "failed to get storage layout: %v" e
  | None => ret tt
  end ;;
  do_call (fmt_Printf "Storage Layout: %v\n" [ALayout layout]).

End Program.

End FuseStorageLayout.

(** ** Observations on a run of the Transfer Benchmark *)

Module BenchmarkObs.

Import TransferBenchmark.
Local Open Scope list_scope.

(** The log entries written between world [w] and a later world [w'], oldest
    first. *)
Definition new_events (w w' : World) : list entry :=
  rev (firstn (List.length (rtrace w') - List.length (rtrace w)) (rtrace w')).

Definition new_calls (w w' : World) : list call :=
  map what (new_events w w').

(** Calls that produce or touch a span. *)
Definition is_span_call (c : call) : bool :=
  match c with
  | tracer_Start _ _ _ _ | span_SetAttributes _ _ | span_End _ => true
  | _ => false
  end.

(** The start of one of the two spans that wrap a whole phase. *)
Definition is_wrapper_start (c : call) : bool :=
  match c with
  | tracer_Start _ _ name _ =>
      String.eqb name "uploada" || String.eqb name "downloads"
  | _ => false
  end.

(** Spans and timer readings: what a phase does besides its workload. *)
Definition is_instrumentation (c : call) : bool :=
  match c with
  | time_Now | time_Since => true
  | _ => is_span_call c
  end.

Definition workload (cs : list call) : list call :=
  filter (fun c => negb (is_instrumentation c)) cs.

Definition span_calls (cs : list call) : list call := filter is_span_call cs.

(** Bytes moved by the [io.CopyN] calls that answered a nil error;
    [io.CopyN] answers nil exactly when it copied all [n] bytes. *)
Definition copied (e : entry) : Z :=
  match what e, failed e with
  | io_CopyN_rand n, None => n
  | io_CopyN_Discard n, None => n
  | _, _ => 0
  end.

Definition bytes_copied (es : list entry) : Z :=
  fold_right (fun e acc => copied e + acc) 0 es.

(** Number of spans started, and the largest number of spans open at the
    same time, in a sequence of calls that starts with [open] spans open. *)
Definition spans_started (cs : list call) : nat :=
  List.length (filter (fun c => match c with
                                | tracer_Start _ _ _ _ => true
                                | _ => false
                                end) cs).

Definition spans_ended (cs : list call) : nat :=
  List.length (filter (fun c => match c with
                                | span_End _ => true
                                | _ => false
                                end) cs).

Fixpoint max_open (open : nat) (cs : list call) : nat :=
  match cs with
  | [] => open
  | tracer_Start _ _ _ _ :: cs' => Nat.max open (max_open (S open) cs')
  | span_End _ :: cs' => Nat.max open (max_open (Nat.pred open) cs')
  | _ :: cs' => max_open open cs'
  end.

(** The property the specification states of the download phase: two spans,
    one after the other. *)
Definition two_spans_in_sequence (cs : list call) : Prop :=
  spans_started cs = 2%nat /\ spans_ended cs = 2%nat /\
  (max_open 0 cs <= 1)%nat.

(** When the first entry recognised by [p] was entered. *)
Definition entered (p : call -> bool) (es : list entry) : option Z :=
  option_map at_time (find (fun e => p (what e)) es).

Definition is_uuid_New (c : call) : bool :=
  match c with uuid_New => true | _ => false end.

Definition is_time_Now (c : call) : bool :=
  match c with time_Now => true | _ => false end.

Definition is_time_Since (c : call) : bool :=
  match c with time_Since => true | _ => false end.

(** The calls made while the timer of a phase runs: after the first
    [time.Now] and before the [time.Since] that follows it. *)
Fixpoint after_Now (cs : list call) : list call :=
  match cs with
  | [] => []
  | time_Now :: cs' => cs'
  | _ :: cs' => after_Now cs'
  end.

Fixpoint until_Since (cs : list call) : list call :=
  match cs with
  | [] => []
  | time_Since :: _ => []
  | c :: cs' => c :: until_Since cs'
  end.

Definition timed_section (cs : list call) : list call :=
  until_Since (after_Now cs).

(** The identifiers of the spans started under [name], and the identifiers
    [span.SetAttributes] was called on. *)
Definition started_as (name : string) (cs : list call) : list nat :=
  flat_map (fun c => match c with
                     | tracer_Start _ _ nm id =>
                         if String.eqb nm name then [id] else []
                     | _ => []
                     end) cs.

Definition attribute_targets (cs : list call) : list nat :=
  flat_map (fun c => match c with
                     | span_SetAttributes id _ => [id]
                     | _ => []
                     end) cs.

Definition is_teardown (c : call) : bool :=
  match c with tp_ForceFlush | tp_Shutdown => true | _ => false end.

Definition is_fmt_Printf (c : call) : bool :=
  match c with fmt_Printf _ _ => true | _ => false end.

(** The durations written by [fmt.Printf]. *)
Definition printed_durations (cs : list call) : list Z :=
  flat_map (fun c => match c with
                     | fmt_Printf _ [ADuration d] => [d]
                     | _ => []
                     end) cs.

(** [m] only makes calls accepted by [p], whatever the world it starts in. *)
Definition emits {A} (p : call -> bool) (m : M World A) : Prop :=
  forall w, exists d,
    rtrace (final (m w)) = d ++ rtrace w /\
    forallb (fun e => p (what e)) d = true.

(** What one logged call [c] answering [r] does to the log, the clock and
    the client variable between [w] and [w1]. *)
Record logged (env : Env) (c : call) (r : option error) (w w1 : World)
  : Prop := {
  lg_trace :
    rtrace w1 = {| at_time := clock w; what := c; failed := r |} :: rtrace w;
  lg_clock :
    clock w1 =
    clock w + pause c + Z.of_N (lat_of env (List.length (rtrace w)) c);
  lg_client : client w1 = client w
}.

(** The span heap and the exporter are as they were. *)
Record same_heap (w w1 : World) : Prop := {
  sh_next : next_span w1 = next_span w;
  sh_spans : spans w1 = spans w;
  sh_exported : exported w1 = exported w
}.

(** [m] always returns: it never ends the process. *)
Definition returns {A} (m : M World A) : Prop :=
  forall w, exists a w', m w = Ret a w'.

Definition not_printf (c : call) : bool := negb (is_fmt_Printf c).
Definition not_wrapper (c : call) : bool := negb (is_wrapper_start c).
Definition not_span (c : call) : bool := negb (is_span_call c).
Definition any_call (c : call) : bool := true.

(** The log of [w1] continues the log of [w]. *)
Definition extends (w w1 : World) : Prop :=
  exists d, rtrace w1 = d ++ rtrace w.

(** Every call logged between [w] and [x] is accepted by [p]. *)
Definition within (p : call -> bool) (w x : World) : Prop :=
  exists d, rtrace x = d ++ rtrace w /\
            forallb (fun e => p (what e)) d = true.

(** [m] never panics, and when [need] is set it relies on, and keeps, a
    client in the package-level variable. *)
Definition guarded {A} (need : bool) (m : M World A) : Prop :=
  forall w, (need = true -> client w <> None) ->
    match m w with
    | Ret _ w' => need = true -> client w' <> None
    | Halt (os_Exit _) _ => True
    | Halt (panic _) _ => False
    end.

(** *** Sample inputs *)

(** The flag defaults of the program. *)
Definition default_flags : Config :=
  {| bucketFlag := "mhall-golang-test"; api := "http2"; cpuprofile := "";
     addSpans := false |}.

Definition spans_flags : Config :=
  {| bucketFlag := "mhall-golang-test"; api := "http2"; cpuprofile := "";
     addSpans := true |}.

Definition bad_api_flags : Config :=
  {| bucketFlag := "mhall-golang-test"; api := "grpc"; cpuprofile := "";
     addSpans := false |}.

(** Every collaborator succeeds at once. *)
Definition calm_env : Env :=
  {| uuid_of := fun _ => "3f2c"; err_of := fun _ _ => None;
     lat_of := fun _ _ => 0%N |}.

(** As [calm_env], but drawing the identifier takes 5 ns. *)
Definition slow_uuid_env : Env :=
  {| uuid_of := fun _ => "3f2c"; err_of := fun _ _ => None;
     lat_of := fun _ c => if is_uuid_New c then 5%N else 0%N |}.

(** As [calm_env], but the write stream rejects the copy. *)
Definition broken_writer_env : Env :=
  {| uuid_of := fun _ => "3f2c";
     err_of := fun _ c => match c with
                          | io_CopyN_rand _ => Some (ErrNew "write refused")
                          | _ => None
                          end;
     lat_of := fun _ _ => 0%N |}.

(** As [calm_env], but the tracer provider cannot be shut down. *)
Definition stuck_shutdown_env : Env :=
  {| uuid_of := fun _ => "3f2c";
     err_of := fun _ c => match c with
                          | tp_Shutdown => Some (ErrNew "exporter timed out")
                          | _ => None
                          end;
     lat_of := fun _ _ => 0%N |}.

(** A world in which [getClient] has already stored the client. *)
Definition ready_world : World :=
  {| clock := 0; rtrace := []; next_span := O; spans := []; exported := [];
     client := Some ClientHTTP2 |}.

Definition sample_object : ObjectHandle :=
  {| oh_client := ClientHTTP2; oh_bucket := "mhall-golang-test";
     oh_object := "trace_3f2c" |}.

End BenchmarkObs.

(** ** Observations on the paths of the Transfer Benchmark *)

Module PathObs.
Import TransferBenchmark BenchmarkObs.
Local Open Scope list_scope.

Definition count_calls (p : call -> bool) (cs : list call) : nat :=
  List.length (filter p cs).

(** The last [n] calls of [cs]. *)
Definition last_calls (n : nat) (cs : list call) : list call :=
  rev (firstn n (rev cs)).

(** What the first call recognised by [p] answered, if there is one. *)
Definition answer_of (p : call -> bool) (es : list entry)
  : option (option error) :=
  option_map failed (find (fun e => p (what e)) es).

(** The text [fmt.Errorf] put in front of the wrapped error. *)
Definition error_prefix (e : error) : string :=
  match e with
  | Errorf prefix _ => prefix
  | _ => ""
  end.

(** *** Calls by kind *)

Definition says_nil_client (c : call) : bool :=
  match c with
  | log_Output text _ => String.eqb text "client is nil"
  | _ => false
  end.

Definition not_nil_report (c : call) : bool := negb (says_nil_client c).

Definition is_log_Output (c : call) : bool :=
  match c with log_Output _ _ => true | _ => false end.

Definition is_SetTracerProvider (c : call) : bool :=
  match c with otel_SetTracerProvider => true | _ => false end.

Definition is_NewWriter (c : call) : bool :=
  match c with object_NewWriter _ _ => true | _ => false end.

Definition is_CopyN_rand (c : call) : bool :=
  match c with io_CopyN_rand _ => true | _ => false end.

Definition is_writer_Close (c : call) : bool :=
  match c with writer_Close => true | _ => false end.

Definition is_NewRangeReader (c : call) : bool :=
  match c with object_NewRangeReader _ _ _ _ => true | _ => false end.

Definition is_CopyN_Discard (n : Z) (c : call) : bool :=
  match c with io_CopyN_Discard m => Z.eqb m n | _ => false end.

Definition is_reader_Close (c : call) : bool :=
  match c with reader_Close => true | _ => false end.

(** The calls [main] defers: stopping the profile, closing its file, and
    the teardown of the tracing pipeline. *)
Definition is_cleanup (c : call) : bool :=
  match c with
  | pprof_StopCPUProfile | file_Close | tp_ForceFlush | tp_Shutdown => true
  | _ => false
  end.

Definition is_profile_call (c : call) : bool :=
  match c with
  | os_Create _ | pprof_StartCPUProfile | pprof_StopCPUProfile | file_Close =>
      true
  | _ => false
  end.

Definition not_profile (c : call) : bool := negb (is_profile_call c).

(** *** Order and exit status *)

(** Recognises an entry by its call, whatever the call answered. *)
Definition on_call (p : call -> bool) (e : entry) : bool := p (what e).

(** Recognises an entry by its call when the call answered nil. *)
Definition answered_nil (p : call -> bool) (e : entry) : bool :=
  p (what e) && match failed e with
                | None => true
                | Some _ => false
                end.

(** In [es] no call recognised by [bad] comes before the first entry
    recognised by [mark]. *)
Fixpoint only_after (mark : entry -> bool) (bad : call -> bool)
  (es : list entry) : bool :=
  match es with
  | [] => true
  | e :: es' => mark e || (negb (bad (what e)) && only_after mark bad es')
  end.

(** Whatever happens, [m] extends the log, and makes no [bad] call before
    its first [mark] entry. *)
Definition defers {A} (mark : entry -> bool) (bad : call -> bool)
  (m : M World A) : Prop :=
  forall w, exists d,
    rtrace (final (m w)) = d ++ rtrace w /\
    only_after mark bad (rev d) = true.


(** *** Sample inputs *)

Definition http1_flags : Config :=
  {| bucketFlag := "mhall-golang-test"; api := "http1"; cpuprofile := "";
     addSpans := false |}.

Definition dp_flags : Config :=
  {| bucketFlag := "mhall-golang-test"; api := "grpc-dp"; cpuprofile := "";
     addSpans := false |}.


Definition wrapped_partial : error :=
  Errorf "detecting resource: " (ErrSentinel ErrPartialResource).

(** As [calm_env], but resource detection is incomplete. *)
Definition partial_resource_env : Env :=
  {| uuid_of := fun _ => "3f2c";
     err_of := fun _ c => match c with
                          | resource_New _ => Some wrapped_partial
                          | _ => None
                          end;
     lat_of := fun _ _ => 0%N |}.

(** As [calm_env], but the range reader cannot be opened. *)
Definition no_reader_env : Env :=
  {| uuid_of := fun _ => "3f2c";
     err_of := fun _ c => match c with
                          | object_NewRangeReader _ _ _ _ =>
                              Some (ErrNew "object not found")
                          | _ => None
                          end;
     lat_of := fun _ _ => 0%N |}.

End PathObs.

(** ** Observations on a listing *)

Module ListingObs.

Import TransferBenchmark ObjectListing.
Local Open Scope list_scope.

(** The error [listObjs] hands back for the answer that ended the loop. *)
Definition listing_error (ienv : IterEnv) (bucket : string) (r : next_error)
  : option error :=
  match r with
  | NextFailed e =>
      Some (Errorf ("Bucket(" ++ quote_of ienv bucket ++ ").Objects: ") e)
  | _ => None
  end.

(** What the loop leaves of the benchmark's world: everything but the
    clock, which does not go back. *)
Record loop_frame (w w1 : World) : Prop := {
  lf_clock : clock w <= clock w1;
  lf_trace : rtrace w1 = rtrace w;
  lf_next : next_span w1 = next_span w;
  lf_spans : spans w1 = spans w;
  lf_exported : exported w1 = exported w;
  lf_client : client w1 = client w
}.

Definition ready_listing : ListWorld :=
  {| base := BenchmarkObs.ready_world; fetches := [] |}.

(** A listing whose second [it.Next] fails. *)
Definition broken_listing : IterEnv :=
  {| next_of := fun i => if (i <? 1)%nat then NextNil
                         else NextFailed (ErrNew "permission denied");
     next_lat := fun _ => 2%N;
     quote_of := fun s => s |}.

(** A listing that never ends. *)
Definition endless_listing : IterEnv :=
  {| next_of := fun _ => NextNil;
     next_lat := fun _ => 2%N;
     quote_of := fun s => s |}.

End ListingObs.

(** ** Observations on a run of the Layout Inspector *)

Module LayoutObs.

Import FuseStorageLayout.
Local Open Scope list_scope.

Definition full_control_scope : string :=
  "https://www.googleapis.com/auth/devstorage.full_control".

Definition layout_path : string :=
  "projects/_/buckets/mhall-golang-test/storageLayout".

Definition lookups (cs : list call) : nat :=
  List.length (filter (fun c => match c with
                                | controlClient_GetStorageLayout _ => true
                                | _ => false
                                end) cs).

End LayoutObs.

(** * Properties of the Layout Inspector *)

Module LayoutFacts.

Import FuseStorageLayout LayoutObs.
Local Open Scope list_scope.

Lemma inspector_never_panics (env : Env) (msg : string) (w w' : World) :
  main env w <> Halt (panic msg) w'.
Proof.
  unfold main, bind, try_call, do_call, GetStorageLayout, log_Fatalf,
    halt_with, ret.
  repeat match goal with
         | |- context [match err_of ?e ?i ?c with _ => _ end] =>
             destruct (err_of e i c)
         end; discriminate.
Qed.

(** C9: started on an empty log, the Layout Inspector asks for default
    credentials with the full-control scope, builds the control client, and
    looks the storage layout of the hardcoded bucket path up once, printing
    what it got; the first of these three calls that fails is logged and
    ends the process with status 1, and nothing is called again after it. *)
Theorem C9_layout_inspector_flow (env : Env) :
  let creds := google_DefaultTokenSource full_control_scope in
  let build := control_NewStorageControlClient in
  let hello := fmt_Println "Successfully created control client:" [AClient] in
  let lookup := controlClient_GetStorageLayout layout_path in
  let run := main env [] in
  (lookups (calls (final run)) <= 1)%nat /\
  match err_of env 0 creds with
  | Some e =>
      run = Halt (os_Exit 1)
              (rev [creds;
                    log_Output "JWTAccessTokenSourceWithScope: %w" [AErr e]])
  | None =>
  match err_of env 1 build with
  | Some e =>
      run = Halt (os_Exit 1)
              (rev [creds; build;
                    log_Output "failed to create control client: %v" [AErr e]])
  | None =>
  match err_of env 3 lookup with
  | Some e =>
      run = Halt (os_Exit 1)
              (rev [creds; build; hello; lookup;
                    log_Output "failed to get storage layout: %v" [AErr e]])
  | None =>
      run = Ret tt
              (rev [creds; build; hello; lookup;
                    fmt_Printf "Storage Layout: %v\n"
                      [ALayout (layout_of env 3)]])
  end
  end
  end.
Proof.
  cbv zeta.
  unfold main, bind, try_call, do_call, GetStorageLayout, log_Fatalf,
    halt_with, ret, full_control_scope, layout_path.
  cbn.
  destruct (err_of env 0 _); cbn; [split; [lia | reflexivity] |].
  destruct (err_of env 1 _); cbn; [split; [lia | reflexivity] |].
  destruct (err_of env 3 _); cbn; split; solve [lia | reflexivity].
Qed.

End LayoutFacts.


(** * Properties of the Transfer Benchmark *)

Module BenchmarkFacts.

Import TransferBenchmark BenchmarkObs.
Local Open Scope list_scope.

(** ** The call log *)

Lemma new_events_intro (w w' : World) (d : list entry) :
  rtrace w' = d ++ rtrace w -> new_events w w' = rev d.
Proof.
  intros E. unfold new_events. rewrite E, length_app.
  replace (List.length d + List.length (rtrace w) - List.length (rtrace w))%nat
    with (List.length d + 0)%nat by lia.
  rewrite firstn_app_2. cbn [firstn]. now rewrite app_nil_r.
Qed.

Lemma new_calls_intro (w w' : World) (d : list entry) :
  rtrace w' = d ++ rtrace w -> new_calls w w' = map what (rev d).
Proof. intros E. unfold new_calls. now rewrite (new_events_intro w w' d). Qed.

Lemma calls_new_calls (w w' : World) (d : list entry) :
  rtrace w' = d ++ rtrace w -> calls w' = calls w ++ new_calls w w'.
Proof.
  intros E. rewrite (new_calls_intro w w' d E).
  unfold calls, events. now rewrite E, rev_app_distr, map_app.
Qed.

(** ** Span identifiers handed out in a row are distinct *)

Lemma eqb_S_l (n : nat) : Nat.eqb (S n) n = false.
Proof. apply Nat.eqb_neq; lia. Qed.

Lemma eqb_S_r (n : nat) : Nat.eqb n (S n) = false.
Proof. apply Nat.eqb_neq; lia. Qed.

Lemma eqb_SS_l (n : nat) : Nat.eqb (S (S n)) n = false.
Proof. apply Nat.eqb_neq; lia. Qed.

Lemma eqb_SS_r (n : nat) : Nat.eqb n (S (S n)) = false.
Proof. apply Nat.eqb_neq; lia. Qed.

(** ** What a returning primitive has done *)

Section Steps.

Variables (cfg : Config) (env : Env).

Lemma bind_Ret {A B} (m : M World A) (k : A -> M World B)
  (w w' : World) (b : B) :
  bind m k w = Ret b w' ->
  exists a w1, m w = Ret a w1 /\ k a w1 = Ret b w'.
Proof. unfold bind. destruct (m w) as [a w1|]; [eauto | discriminate]. Qed.

Lemma pair_eq {A B} (a c : A) (b d : B) : (a, b) = (c, d) -> a = c /\ b = d.
Proof. intros H. now inversion H. Qed.

Lemma ret_Ret {A} (a b : A) (w w' : World) :
  ret a w = Ret b w' -> a = b /\ w = w'.
Proof. unfold ret. intros H. now injection H. Qed.

Lemma try_call_Ret c w r w1 :
  try_call env c w = Ret r w1 ->
  r = err_of env (List.length (rtrace w)) c /\
  logged env c r w w1 /\ same_heap w w1.
Proof. unfold try_call. intros H. inversion H; subst. repeat split. Qed.

Lemma do_call_Ret c w u w1 :
  do_call env c w = Ret u w1 -> logged env c None w w1 /\ same_heap w w1.
Proof. unfold do_call. intros H. inversion H; subst. repeat split. Qed.

Lemma sleep_Ret d w u w1 :
  sleep env d w = Ret u w1 ->
  logged env (time_Sleep d) None w w1 /\ same_heap w w1.
Proof. apply do_call_Ret. Qed.

Lemma now_Ret w t w1 :
  now env w = Ret t w1 ->
  t = clock w /\ logged env time_Now None w w1 /\ same_heap w w1.
Proof.
  unfold now, bind, get_clock, do_call, ret.
  intros H. inversion H; subst. repeat split.
Qed.

Lemma since_Ret start w d w1 :
  since env start w = Ret d w1 ->
  d = Duration.sub (clock w) start /\
  logged env time_Since None w w1 /\ same_heap w w1.
Proof.
  unfold since, bind, get_clock, do_call, ret.
  intros H. inversion H; subst. repeat split.
Qed.

Lemma uuid_NewString_Ret w id w1 :
  uuid_NewString env w = Ret id w1 ->
  id = uuid_of env (List.length (rtrace w)) /\
  logged env uuid_New None w w1 /\ same_heap w w1.
Proof. unfold uuid_NewString. intros H. inversion H; subst. repeat split. Qed.

Lemma deref_client_Ret w c w1 :
  deref_client w = Ret c w1 -> client w = Some c /\ w1 = w.
Proof.
  unfold deref_client, bind, get_client, ret, halt_with.
  destruct (client w); [| discriminate]. intros H. now inversion H.
Qed.

Lemma get_client_Ret w c w1 :
  get_client w = Ret c w1 -> c = client w /\ w1 = w.
Proof. unfold get_client. intros H. now inversion H. Qed.

Lemma set_client_Ret c w u w1 :
  set_client c w = Ret u w1 ->
  rtrace w1 = rtrace w /\ clock w1 = clock w /\ client w1 = c /\
  same_heap w w1.
Proof. unfold set_client. intros H. inversion H; subst. repeat split. Qed.

Lemma Tracer_Start_Ret ctx tracer name w r w1 :
  Tracer_Start env ctx tracer name w = Ret r w1 ->
  r = (Some (next_span w), next_span w) /\
  logged env (tracer_Start ctx tracer name (next_span w)) None w w1 /\
  next_span w1 = S (next_span w) /\
  spans w1 = (next_span w,
              {| span_tracer := tracer; span_name := name;
                 span_parent := ctx; span_attrs := [];
                 span_ended := false |}) :: spans w /\
  exported w1 = exported w.
Proof. unfold Tracer_Start. intros H. inversion H; subst. repeat split. Qed.

Lemma SetAttributes_Ret id kvs w u w1 :
  SetAttributes env id kvs w = Ret u w1 ->
  logged env (span_SetAttributes id kvs) None w w1 /\
  next_span w1 = next_span w /\
  spans w1 = heap_SetAttributes id kvs (spans w) /\
  exported w1 = exported w.
Proof. unfold SetAttributes. intros H. inversion H; subst. repeat split. Qed.

Lemma End_Ret id w u w1 :
  End env id w = Ret u w1 ->
  logged env (span_End id) None w w1 /\
  next_span w1 = next_span w /\
  spans w1 = heap_End id (spans w) /\
  exported w1 = export_End id (spans w) (exported w).
Proof. unfold End. intros H. inversion H; subst. repeat split. Qed.

Lemma log_Println_Ret e w u w1 :
  log_Println env e w = Ret u w1 ->
  logged env (log_Output "" [AErr e]) None w w1 /\ same_heap w w1.
Proof. apply do_call_Ret. Qed.

Lemma log_Fatalf_Ret {A} format a w (x : A) w1 :
  log_Fatalf env format a w = Ret x w1 -> False.
Proof. discriminate. Qed.

Lemma log_Fatalln_Ret {A} msg w (x : A) w1 :
  log_Fatalln env msg w = Ret x w1 -> False.
Proof. discriminate. Qed.

Lemma log_Fatal_Ret {A} msg e w (x : A) w1 :
  log_Fatal env msg e w = Ret x w1 -> False.
Proof. discriminate. Qed.

End Steps.

(** ** Walking along a returning run

    [walk H] takes [H : m w = Ret a w'], follows the code of [m] and leaves,
    for every call on the way, what the call did to the world; it splits on
    every answer of the environment and drops the paths that end the
    process. The worlds in between stay variables. *)

Ltac prim H :=
  lazymatch type of H with
  | try_call _ _ _ = Ret _ _ =>
      apply try_call_Ret in H; destruct H as (-> & ? & ?)
  | do_call _ _ _ = Ret _ _ =>
      apply do_call_Ret in H; destruct H as (? & ?)
  | sleep _ _ _ = Ret _ _ =>
      apply sleep_Ret in H; destruct H as (? & ?)
  | now _ _ = Ret _ _ =>
      apply now_Ret in H; destruct H as (-> & ? & ?)
  | since _ _ _ = Ret _ _ =>
      apply since_Ret in H; destruct H as (-> & ? & ?)
  | uuid_NewString _ _ = Ret _ _ =>
      apply uuid_NewString_Ret in H; destruct H as (-> & ? & ?)
  | log_Println _ _ _ = Ret _ _ =>
      apply log_Println_Ret in H; destruct H as (? & ?)
  | deref_client _ = Ret _ _ =>
      apply deref_client_Ret in H; destruct H as (? & ->)
  | get_client _ = Ret _ _ =>
      apply get_client_Ret in H; destruct H as (-> & ->)
  | set_client _ _ = Ret _ _ =>
      apply set_client_Ret in H; destruct H as (? & ? & ? & ?)
  | Tracer_Start _ _ _ _ _ = Ret _ _ =>
      apply Tracer_Start_Ret in H; destruct H as (-> & ? & ? & ? & ?)
  | SetAttributes _ _ _ _ = Ret _ _ =>
      apply SetAttributes_Ret in H; destruct H as (? & ? & ? & ?)
  | End _ _ _ = Ret _ _ =>
      apply End_Ret in H; destruct H as (? & ? & ? & ?)
  | _ => walk_gen ltac:(fun R => destruct R as (<- & <-)) H
  end;
  repeat match goal with
         | L : logged _ _ _ _ _ |- _ => destruct L
         | L : same_heap _ _ |- _ => destruct L
         end
with walk_gen fin H :=
  cbv beta iota zeta in H;
  lazymatch type of H with
  | bind _ _ _ = Ret _ _ =>
      let a := fresh "a" in
      let w1 := fresh "w" in
      let S := fresh "S" in
      apply bind_Ret in H; destruct H as (a & w1 & S & H);
      prim S; walk_gen fin H
  | ret _ _ = Ret _ _ =>
      apply ret_Ret in H; fin H
  | log_Fatalf _ _ _ _ = Ret _ _ =>
      exfalso; exact (log_Fatalf_Ret _ _ _ _ _ _ H)
  | log_Fatalln _ _ _ = Ret _ _ =>
      exfalso; exact (log_Fatalln_Ret _ _ _ _ _ H)
  | log_Fatal _ _ _ _ = Ret _ _ =>
      exfalso; exact (log_Fatal_Ret _ _ _ _ _ _ H)
  | (match err_of ?e ?i ?c with _ => _ end) _ = Ret _ _ =>
      let E := fresh "E" in
      destruct (err_of e i c) eqn:E; walk_gen fin H
  | (match ?x with _ => _ end) _ = Ret _ _ =>
      destruct x; walk_gen fin H
  | _ => idtac
  end.

Ltac walk H := walk_gen ltac:(fun R => destruct R as (R & ->)) H.

(** Splits the equation between the values a run returned. *)
Ltac results H :=
  repeat match type of H with
         | (_, _) = (_, _) =>
             let H' := fresh "R" in
             apply pair_eq in H; destruct H as (H & H')
         end.

(** [T : rtrace w' = e_n :: ... :: e_1 :: rtrace w], read off the [logged]
    facts. *)
Ltac trace_between w w' T :=
  pose proof (eq_refl (rtrace w')) as T;
  let l := fresh "l" in
  set (l := rtrace w') in T at 2;
  repeat match type of T with
         | context [rtrace ?x] =>
             match goal with
             | L : rtrace x = _ |- _ =>
                 lazymatch L with
                 | T => fail
                 | _ => rewrite L in T
                 end
             end
         end;
  subst l; symmetry in T.

Ltac strip_tail l t :=
  lazymatch l with
  | t => constr:(@nil entry)
  | ?e :: ?l' => let d := strip_tail l' t in constr:(e :: d)
  end.

(** Rewrites [new_events w w'] and [new_calls w w'] into the explicit list. *)
Ltac expose_new w w' :=
  let T := fresh "T" in
  trace_between w w' T;
  lazymatch type of T with
  | _ = ?l =>
      let d := strip_tail l (rtrace w) in
      rewrite ?(new_calls_intro w w' d T), ?(new_events_intro w w' d T)
  end.

(** Expresses every span identifier by the first free identifier of the
    world the run started in. *)
Ltac norm_ids :=
  repeat match goal with
         | Hy : next_span ?y = _, H : context [next_span ?y] |- _ =>
             lazymatch H with
             | Hy => fail
             | _ => rewrite Hy in H
             end
         | Hy : next_span ?y = _ |- context [next_span ?y] => rewrite Hy
         end.

(** ** The upload phase *)

(** C3: a successful upload draws an identifier, names the object
    [trace_<identifier>] in the bucket of the [-bucket] flag (distinct
    identifiers give distinct names), opens a write stream on it, sleeps one
    second, copies 10 MiB from the random source and closes the stream:
    10 MiB are written in all. *)
Theorem C3_upload_writes_10MiB
  (cfg : Config) (env : Env) (ctx : Ctx) (withSpan : bool)
  (w w' : World) (runTime : Z) (o : ObjectHandle) :
  upload cfg env ctx withSpan w = Ret (runTime, o, None) w' ->
  let id := uuid_of env (List.length (rtrace w)) in
  oh_bucket o = bucketFlag cfg /\
  ObjectName o = ("trace_" ++ id)%string /\
  (forall id', ("trace_" ++ id')%string = ObjectName o -> id' = id) /\
  workload (new_calls w w') =
    [uuid_New;
     object_NewWriter (if withSpan then Some (next_span w) else ctx) o;
     time_Sleep (1 * Duration.Second);
     io_CopyN_rand (10 * 1024 * 1024);
     writer_Close] /\
  bytes_copied (new_events w w') = 10 * 1024 * 1024.
Proof.
  intros H id. subst id. unfold upload in H.
  destruct withSpan; walk H; results H; try discriminate; subst;
    expose_new w w'; norm_ids;
    (split; [reflexivity |]); (split; [reflexivity |]);
    (split; [cbn; intros id' E'; now injection E' |]);
    split; reflexivity.
Qed.

Lemma C3_upload_witness :
  let w' := final (upload default_flags calm_env None false ready_world) in
  workload (new_calls ready_world w') =
    [uuid_New; object_NewWriter None sample_object;
     time_Sleep (1 * Duration.Second); io_CopyN_rand (10 * 1024 * 1024);
     writer_Close] /\
  bytes_copied (new_events ready_world w') = 10 * 1024 * 1024.
Proof.
  intros w'.
  assert (H : upload default_flags calm_env None false ready_world =
              Ret (Duration.Second, sample_object, None) w')
    by (vm_compute; reflexivity).
  destruct (C3_upload_writes_10MiB _ _ _ _ _ _ _ _ H) as (_ & _ & _ & Hw & Hb).
  split; assumption.
Defined.

(** ** The download phase *)

(** C2: a successful download opens a range reader on the object for offset
    0 and length 1 MiB, copies 1 KiB to [io.Discard], sleeps 100 seconds,
    copies the remaining 1 MiB - 1 KiB, sleeps 5 seconds and closes the
    reader: 1 MiB is read in all. *)
Theorem C2_download_reads_1MiB
  (cfg : Config) (env : Env) (ctx : Ctx) (o : ObjectHandle) (withSpan : bool)
  (w w' : World) (runTime : Z) :
  download cfg env ctx o withSpan w = Ret (runTime, None) w' ->
  workload (new_calls w w') =
    [object_NewRangeReader
       (Some (if withSpan then S (next_span w) else next_span w))
       o 0 (1024 * 1024);
     io_CopyN_Discard 1024;
     time_Sleep (100 * Duration.Second);
     io_CopyN_Discard (1024 * 1024 - 1024);
     time_Sleep (5 * Duration.Second);
     reader_Close] /\
  bytes_copied (new_events w w') = 1024 * 1024.
Proof.
  intros H. unfold download in H.
  destruct withSpan; walk H; results H; try discriminate; subst;
    expose_new w w'; norm_ids; split; reflexivity.
Qed.

Lemma C2_download_witness :
  let w' := final (download default_flags calm_env None sample_object false
                     ready_world) in
  workload (new_calls ready_world w') =
    [object_NewRangeReader (Some O) sample_object 0 (1024 * 1024);
     io_CopyN_Discard 1024;
     time_Sleep (100 * Duration.Second);
     io_CopyN_Discard (1024 * 1024 - 1024);
     time_Sleep (5 * Duration.Second);
     reader_Close] /\
  bytes_copied (new_events ready_world w') = 1024 * 1024.
Proof.
  intros w'.
  assert (H : download default_flags calm_env None sample_object false
                ready_world = Ret (105 * Duration.Second, None) w')
    by (vm_compute; reflexivity).
  exact (C2_download_reads_1MiB _ _ _ _ _ _ _ _ H).
Defined.

(** C4 as the specification states it fails with [-add-spans] set: the
    download phase then starts three spans, and the wrapping span stays open
    while each of the other two is open. *)
Lemma C4_counterexample :
  ~ two_spans_in_sequence
      (span_calls
         (new_calls ready_world
            (final (download spans_flags calm_env context_Background
                      sample_object (addSpans spans_flags) ready_world)))).
Proof. intros (Hs & _). vm_compute in Hs. discriminate Hs. Qed.

(** C4, amended: a successful download starts and ends the two spans
    [user-span-1] and [user-span-2] one after the other, the first ended
    before the second is started, whatever [-add-spans] says; with the flag
    set a third span, [downloads], is started before them and ended after
    them, so that it is open during both. *)
Theorem C4_download_spans
  (cfg : Config) (env : Env) (ctx : Ctx) (o : ObjectHandle) (withSpan : bool)
  (w w' : World) (runTime : Z) :
  download cfg env ctx o withSpan w = Ret (runTime, None) w' ->
  let n := next_span w in
  let kvs := [("object", ObjectName o); ("mykey", api cfg)]%string in
  span_calls (new_calls w w') =
    if withSpan then
      [tracer_Start ctx "go-ups" "downloads" n;
       span_SetAttributes n kvs;
       tracer_Start (Some n) "go-downs" "user-span-1" (S n);
       span_SetAttributes (S n) kvs;
       span_End (S n);
       tracer_Start (Some (S n)) "go-ups" "user-span-2" (S (S n));
       span_SetAttributes (S n) kvs;
       span_End (S (S n));
       span_End n]
    else
      [tracer_Start ctx "go-downs" "user-span-1" n;
       span_SetAttributes n kvs;
       span_End n;
       tracer_Start (Some n) "go-ups" "user-span-2" (S n);
       span_SetAttributes n kvs;
       span_End (S n)].
Proof.
  intros H n kvs. subst n kvs. unfold download in H.
  destruct withSpan; walk H; results H; try discriminate; subst;
    expose_new w w'; norm_ids; reflexivity.
Qed.

Lemma C4_download_spans_witness :
  spans_started
    (span_calls
       (new_calls ready_world
          (final (download spans_flags calm_env None sample_object true
                    ready_world)))) = 3%nat.
Proof.
  assert (H : download spans_flags calm_env None sample_object true
                ready_world =
              Ret (105 * Duration.Second, None)
                (final (download spans_flags calm_env None sample_object true
                          ready_world)))
    by (vm_compute; reflexivity).
  rewrite (C4_download_spans _ _ _ _ _ _ _ _ H). reflexivity.
Defined.

(** ** The timer of the upload phase *)

(** C5 as the specification states it fails: with an identifier that takes
    5 ns to draw, the reported duration is 1 s although 1 s + 5 ns pass
    between the moment name generation is entered and the moment the timer
    is read. *)
Lemma C5_counterexample :
  let w' := final (upload default_flags slow_uuid_env None false
                     ready_world) in
  exists runTime o t_name t_end,
    upload default_flags slow_uuid_env None false ready_world =
      Ret (runTime, o, None) w' /\
    entered is_uuid_New (new_events ready_world w') = Some t_name /\
    entered is_time_Since (new_events ready_world w') = Some t_end /\
    runTime <> Duration.sub t_end t_name.
Proof.
  exists Duration.Second, sample_object, 0, (Duration.Second + 5).
  repeat split; try (vm_compute; reflexivity).
  vm_compute. discriminate.
Qed.

(** C5, amended: whenever the upload phase returns, the reported duration is
    the time between the [time.Now] read after the object name has been
    generated (and after the optional span has been started) and the
    [time.Since] read right after the write stream is closed; opening,
    sleeping, copying and closing are the only calls in between, so name
    generation is not part of the interval. *)
Theorem C5_upload_timer
  (cfg : Config) (env : Env) (ctx : Ctx) (withSpan : bool)
  (w w' : World) (runTime : Z) (o : ObjectHandle) (err : option error) :
  upload cfg env ctx withSpan w = Ret (runTime, o, err) w' ->
  exists t_name t_start t_end,
    entered is_uuid_New (new_events w w') = Some t_name /\
    entered is_time_Now (new_events w w') = Some t_start /\
    entered is_time_Since (new_events w w') = Some t_end /\
    runTime = Duration.sub t_end t_start /\
    t_name + Z.of_N (lat_of env (List.length (rtrace w)) uuid_New)
      <= t_start /\
    timed_section (new_calls w w') =
      [object_NewWriter (if withSpan then Some (next_span w) else ctx) o;
       time_Sleep (1 * Duration.Second);
       io_CopyN_rand (10 * 1024 * 1024);
       writer_Close].
Proof.
  intros H. unfold upload in H.
  destruct withSpan; walk H; results H; subst;
    expose_new w w'; norm_ids;
    do 3 eexists;
    (split; [reflexivity |]); (split; [reflexivity |]);
    (split; [reflexivity |]); (split; [reflexivity |]);
    (split; [cbn [at_time pause] in *; lia | reflexivity]).
Qed.

Lemma C5_upload_timer_witness :
  let w' := final (upload default_flags slow_uuid_env None false
                     ready_world) in
  exists t_name t_start t_end,
    entered is_uuid_New (new_events ready_world w') = Some t_name /\
    entered is_time_Now (new_events ready_world w') = Some t_start /\
    entered is_time_Since (new_events ready_world w') = Some t_end /\
    Duration.Second = Duration.sub t_end t_start /\
    t_name + 5 <= t_start.
Proof.
  intros w'.
  assert (H : upload default_flags slow_uuid_env None false ready_world =
              Ret (Duration.Second, sample_object, None) w')
    by (vm_compute; reflexivity).
  destruct (C5_upload_timer _ _ _ _ _ _ _ _ _ H)
    as (t0 & t1 & t2 & H0 & H1 & H2 & H3 & H4 & _).
  exists t0, t1, t2. repeat split; assumption.
Defined.

(** ** The span heap on a walk *)

Ltac strip_spans l t :=
  lazymatch l with
  | t => constr:(@nil Span)
  | ?e :: ?l' => let d := strip_spans l' t in constr:(e :: d)
  end.

Ltac simpl_heap H :=
  unfold heap_SetAttributes, heap_End, export_End in H;
  repeat progress
    (cbn [find_span update_span span_ended span_attrs span_name span_tracer
          span_parent add_attrs end_span app] in H;
     rewrite ?Nat.eqb_refl, ?eqb_S_l, ?eqb_S_r, ?eqb_SS_l, ?eqb_SS_r in H).

(** Computes the heap and the exported spans of every world of a walk, from
    the first world on. *)
Ltac norm_heap :=
  norm_ids;
  repeat match goal with
         | Hy : spans ?y = ?t, H : spans _ = ?u |- _ =>
             lazymatch u with context [spans y] => idtac end;
             lazymatch t with
             | context [spans ?v] =>
                 lazymatch goal with
                 | Hv : spans v = _ |- _ => fail
                 | _ => idtac
                 end
             | _ => idtac
             end;
             rewrite Hy in H; simpl_heap H
         end;
  repeat match goal with
         | Hy : spans ?y = _, H : exported _ = ?u |- _ =>
             lazymatch u with context [spans y] => idtac end;
             rewrite Hy in H; simpl_heap H
         end;
  repeat match goal with
         | Hy : exported ?y = ?t, H : exported _ = ?u |- _ =>
             lazymatch u with context [exported y] => idtac end;
             lazymatch t with
             | context [exported ?v] =>
                 lazymatch goal with
                 | Hv : exported v = _ |- _ => fail
                 | _ => idtac
                 end
             | _ => idtac
             end;
             rewrite Hy in H
         end.

Ltac pick_span l tac :=
  lazymatch l with
  | ?e :: ?l' => first [ exists e; tac | pick_span l' tac ]
  end.

Ltac export_list w w' tac :=
  match goal with
  | Hx : exported w' = ?l |- _ =>
      let d := strip_spans l (exported w) in tac Hx d
  end.

(** ** The attributes of the second span *)

(** C10: in every returning run of the download phase no
    [span.SetAttributes] call ever targets the span started as
    [user-span-2]: all of them target [user-span-1] or the wrapping span.
    Every snapshot of [user-span-2] handed to the exporter therefore has no
    attributes, and in a successful run there is one, next to the snapshot
    of [user-span-1], which carries the object name and the transport mode
    once. *)
Theorem C10_second_span_without_attributes
  (cfg : Config) (env : Env) (ctx : Ctx) (o : ObjectHandle) (withSpan : bool)
  (w w' : World) (runTime : Z) (err : option error) :
  download cfg env ctx o withSpan w = Ret (runTime, err) w' ->
  let cs := new_calls w w' in
  (forall id, In id (started_as "user-span-2" cs) ->
              ~ In id (attribute_targets cs)) /\
  (forall id, In id (attribute_targets cs) ->
              In id (started_as "user-span-1" cs ++
                     started_as "downloads" cs)) /\
  exists ex,
    exported w' = ex ++ exported w /\
    Forall (fun s => span_name s = "user-span-2"%string -> span_attrs s = [])
           ex /\
    (err = None ->
     (exists s2, In s2 ex /\ span_name s2 = "user-span-2"%string /\
                 span_attrs s2 = [] /\ span_ended s2 = true) /\
     (exists s1, In s1 ex /\ span_name s1 = "user-span-1"%string /\
                 span_attrs s1 =
                   [("object", ObjectName o); ("mykey", api cfg)]%string)).
Proof.
  intros H cs. subst cs. unfold download in H.
  destruct withSpan; walk H; results H; subst;
    expose_new w w'; norm_heap;
    (split; [cbn; intros id Hs Ht; intuition lia |]);
    (split; [cbn; intros id Ht; intuition lia |]);
    export_list w w' ltac:(fun Hx d =>
      exists d; split; [exact Hx |];
      (split;
       [repeat constructor; cbn; intros Hname;
        solve [reflexivity | discriminate Hname] |]);
      intros Herr; try discriminate Herr;
      split;
      pick_span d ltac:(split; [simpl; auto 10 |]; repeat split; reflexivity)).
Qed.




Lemma C10_second_span_witness :
  let w' := final (download default_flags calm_env None sample_object false
                     ready_world) in
  exists s2, In s2 (exported w') /\ span_name s2 = "user-span-2"%string /\
             span_attrs s2 = [].
Proof.
  intros w'.
  assert (H : download default_flags calm_env None sample_object false
                ready_world = Ret (105 * Duration.Second, None) w')
    by (vm_compute; reflexivity).
  destruct (C10_second_span_without_attributes _ _ _ _ _ _ _ _ _ H)
    as (_ & _ & ex & Hex & _ & Hs).
  destruct (Hs eq_refl) as ((s2 & Hin & Hn & Ha & _) & _).
  exists s2. split; [| now split].
  rewrite Hex. apply in_or_app. now left.
Defined.

(** [enableTracing] hands back the teardown closure and nothing else. *)
Lemma enableTracing_close (env : Env) (ctx : Ctx) (w w' : World)
  (close : M World unit) :
  enableTracing env ctx w = Ret close w' -> close = teardown env ctx.
Proof. intros H. unfold enableTracing in H. walk H; now symmetry. Qed.

(** ** What a piece of code may log, whatever happens *)

Section Emits.

Variables (cfg : Config) (env : Env) (p : call -> bool).

Lemma emits_ret {A} (a : A) : emits p (ret a).
Proof. intros w. now exists []. Qed.

Lemma emits_halt_with {A} (h : halt) : emits p (@halt_with World A h).
Proof. intros w. now exists []. Qed.

Lemma emits_bind {A B} (m : M World A) (k : A -> M World B) :
  emits p m -> (forall a, emits p (k a)) -> emits p (bind m k).
Proof.
  intros Hm Hk w. unfold bind.
  destruct (Hm w) as (d1 & T1 & F1).
  destruct (m w) as [a w1 | h w1]; cbn [final] in T1.
  - destruct (Hk a w1) as (d2 & T2 & F2).
    exists (d2 ++ d1). split.
    + now rewrite T2, T1, app_assoc.
    + now rewrite forallb_app, F2, F1.
  - now exists d1.
Qed.

Lemma emits_bind_with {A B} (Q : A -> Prop) (m : M World A)
  (k : A -> M World B) :
  (forall w a w', m w = Ret a w' -> Q a) ->
  emits p m -> (forall a, Q a -> emits p (k a)) -> emits p (bind m k).
Proof.
  intros HQ Hm Hk w. unfold bind.
  destruct (Hm w) as (d1 & T1 & F1).
  destruct (m w) as [a w1 | h w1] eqn:E; cbn [final] in T1.
  - destruct (Hk a (HQ _ _ _ E) w1) as (d2 & T2 & F2).
    exists (d2 ++ d1). split.
    + now rewrite T2, T1, app_assoc.
    + now rewrite forallb_app, F2, F1.
  - now exists d1.
Qed.

Lemma emits_bind_ret {A B} (a : A) (k : A -> M World B) :
  emits p (k a) -> emits p (bind (ret a) k).
Proof. intros Hk w. exact (Hk w). Qed.

Lemma emits_record (c : call) (r : option error) (w : World) :
  p c = true ->
  exists d, rtrace (record_call env c r w) = d ++ rtrace w /\
            forallb (fun e => p (what e)) d = true.
Proof.
  intros Hc. exists [{| at_time := clock w; what := c; failed := r |}].
  split; [reflexivity |]. cbn. now rewrite Hc.
Qed.

Lemma emits_try_call (c : call) : p c = true -> emits p (try_call env c).
Proof. intros Hc w. now apply emits_record. Qed.

Lemma emits_do_call (c : call) : p c = true -> emits p (do_call env c).
Proof. intros Hc w. now apply emits_record. Qed.

Lemma emits_sleep (d : Z) : p (time_Sleep d) = true -> emits p (sleep env d).
Proof. apply emits_do_call. Qed.

Lemma emits_now : p time_Now = true -> emits p (now env).
Proof. intros Hc w. now apply emits_record. Qed.

Lemma emits_since (start : Z) : p time_Since = true -> emits p (since env start).
Proof. intros Hc w. now apply emits_record. Qed.

Lemma emits_uuid_NewString : p uuid_New = true -> emits p (uuid_NewString env).
Proof. intros Hc w. now apply emits_record. Qed.

Lemma emits_get_client : emits p get_client.
Proof. intros w. now exists []. Qed.

Lemma emits_set_client (c : option Client) : emits p (set_client c).
Proof. intros w. now exists []. Qed.

Lemma emits_deref_client : emits p deref_client.
Proof.
  intros w. unfold deref_client, bind, get_client.
  destruct (client w); now exists [].
Qed.

Lemma emits_Tracer_Start (ctx : Ctx) (tracer name : string) :
  (forall id, p (tracer_Start ctx tracer name id) = true) ->
  emits p (Tracer_Start env ctx tracer name).
Proof. intros Hc w. now apply emits_record. Qed.

Lemma emits_SetAttributes (id : nat) (kvs : list KeyValue) :
  p (span_SetAttributes id kvs) = true -> emits p (SetAttributes env id kvs).
Proof. intros Hc w. now apply emits_record. Qed.

Lemma emits_End (id : nat) : p (span_End id) = true -> emits p (End env id).
Proof. intros Hc w. now apply emits_record. Qed.

Lemma emits_new_calls {A} (m : M World A) (w : World) :
  emits p m -> forallb p (new_calls w (final (m w))) = true.
Proof.
  intros Hm. destruct (Hm w) as (d & T & F).
  rewrite (new_calls_intro _ _ d T).
  apply forallb_forall. intros c Hc.
  apply in_map_iff in Hc. destruct Hc as (e & <- & He).
  apply in_rev in He.
  rewrite forallb_forall in F. now apply F.
Qed.

End Emits.

Ltac emits_step :=
  first
    [ progress cbv beta iota zeta
    | apply emits_ret
    | apply emits_halt_with
    | apply emits_try_call; reflexivity
    | apply emits_do_call; reflexivity
    | apply emits_sleep; reflexivity
    | apply emits_now; reflexivity
    | apply emits_since; reflexivity
    | apply emits_uuid_NewString; reflexivity
    | apply emits_get_client
    | apply emits_set_client
    | apply emits_deref_client
    | apply emits_Tracer_Start; intro; reflexivity
    | apply emits_SetAttributes; reflexivity
    | apply emits_End; reflexivity
    | match goal with
      | |- emits _ (bind (enableTracing ?e ?c) _) =>
          apply (emits_bind_with _ (fun close => close = teardown e c));
          [ intros ? ? ? HT; exact (enableTracing_close _ _ _ _ _ HT)
          | | intros ? -> ]
      | |- emits _ (enableTracing _ _) => unfold enableTracing
      end
    | apply emits_bind_ret
    | apply emits_bind; [| intro]
    | match goal with
      | |- emits _ (match ?x with _ => _ end) => destruct x
      end ].

(** Decides [emits p m] for a piece of the program. *)
Ltac emits_auto :=
  unfold main, getClient, teardown, upload, download,
    log_Fatalf, log_Fatalln, log_Fatal, log_Println;
  repeat emits_step.

(** ** Code that cannot end the process *)

Section Returns.

Variables (cfg : Config) (env : Env).

Lemma returns_ret {A} (a : A) : returns (@ret World A a).
Proof. intros w. now exists a, w. Qed.

Lemma returns_bind {A B} (m : M World A) (k : A -> M World B) :
  returns m -> (forall a, returns (k a)) -> returns (bind m k).
Proof.
  intros Hm Hk w. unfold bind.
  destruct (Hm w) as (a & w1 & ->). apply Hk.
Qed.

Lemma returns_try_call (c : call) : returns (try_call env c).
Proof. intros w. now eexists _, _. Qed.

Lemma returns_do_call (c : call) : returns (do_call env c).
Proof. intros w. now eexists _, _. Qed.

Lemma returns_sleep (d : Z) : returns (sleep env d).
Proof. apply returns_do_call. Qed.

Lemma returns_now : returns (now env).
Proof. intros w. now eexists _, _. Qed.

Lemma returns_since (start : Z) : returns (since env start).
Proof. intros w. now eexists _, _. Qed.

Lemma returns_Tracer_Start (ctx : Ctx) (tracer name : string) :
  returns (Tracer_Start env ctx tracer name).
Proof. intros w. now eexists _, _. Qed.

Lemma returns_SetAttributes (id : nat) (kvs : list KeyValue) :
  returns (SetAttributes env id kvs).
Proof. intros w. now eexists _, _. Qed.

Lemma returns_End (id : nat) : returns (End env id).
Proof. intros w. now eexists _, _. Qed.

End Returns.

Ltac returns_step :=
  first
    [ apply returns_ret
    | apply returns_try_call
    | apply returns_do_call
    | apply returns_sleep
    | apply returns_now
    | apply returns_since
    | apply returns_Tracer_Start
    | apply returns_SetAttributes
    | apply returns_End
    | apply returns_bind; [| intro]
    | match goal with
      | |- returns (match ?x with _ => _ end) => destruct x
      end
    | progress cbv beta iota zeta ].

(** The download phase hands every failure back to its caller. *)
Lemma download_returns (cfg : Config) (env : Env) (ctx : Ctx)
  (o : ObjectHandle) (withSpan : bool) :
  returns (download cfg env ctx o withSpan).
Proof. unfold download. repeat returns_step. Qed.

(** ** Spans when [-add-spans] is off *)

(** C1 as the specification states it fails: with the flag defaults, hence
    without [-add-spans], a run in which every collaborator succeeds starts
    two spans. *)
Lemma C1_counterexample :
  addSpans default_flags = false /\
  returned (main default_flags calm_env init_world) = true /\
  spans_started (calls (final (main default_flags calm_env init_world)))
    = 2%nat.
Proof. repeat split; vm_compute; reflexivity. Qed.

(** C1, amended: without [-add-spans] no wrapping span ([uploada],
    [downloads]) is started anywhere in the program and the upload phase
    makes no span call at all. The download phase, however, always returns
    and makes its user-span calls although the flag is off: it always
    starts [user-span-1] right after reading the timer and sets its
    attributes; when opening the range reader or copying the first 1 KiB
    fails it makes no other span call; otherwise it ends [user-span-1],
    sleeps 100 seconds and starts [user-span-2] right after that sleep,
    and ends [user-span-2] when the second copy has succeeded. The calls
    of each of these paths are given in full, with what each answered. *)
Theorem C1_spans_without_flag (cfg : Config) (env : Env) :
  addSpans cfg = false ->
  (forall w,
     forallb not_wrapper (new_calls w (final (main cfg env w))) = true) /\
  (forall ctx w,
     forallb not_span
       (new_calls w (final (upload cfg env ctx (addSpans cfg) w))) = true) /\
  (forall ctx o w, exists runTime err w',
     download cfg env ctx o (addSpans cfg) w = Ret (runTime, err) w' /\
     let n := next_span w in
     let kvs := [("object", ObjectName o); ("mykey", api cfg)]%string in
     let opening :=
       [time_Now;
        tracer_Start ctx "go-downs" "user-span-1" n;
        span_SetAttributes n kvs;
        object_NewRangeReader (Some n) o 0 (1024 * 1024)] in
     let reading :=
       [io_CopyN_Discard 1024;
        span_End n;
        time_Sleep (100 * Duration.Second);
        tracer_Start (Some n) "go-ups" "user-span-2" (S n);
        span_SetAttributes n kvs;
        io_CopyN_Discard (1024 * 1024 - 1024)] in
     let answers := map failed (new_events w w') in
     (exists e,
        err = Some (Errorf "new reader: " e) /\
        new_calls w w' = opening ++ [time_Since] /\
        answers = [None; None; None; Some e; None]) \/
     (exists e r,
        err = Some (Errorf "io.Copy: " e) /\
        new_calls w w' =
          opening ++ [io_CopyN_Discard 1024; reader_Close; time_Since] /\
        answers = [None; None; None; None; Some e; r; None]) \/
     (exists e r,
        err = Some (Errorf "io.Copy: " e) /\
        new_calls w w' = opening ++ reading ++ [reader_Close; time_Since] /\
        answers = repeat None 9 ++ [Some e; r; None]) \/
     (exists r,
        err = match r with
              | Some e => Some (Errorf "e.Close: " e)
              | None => None
              end /\
        new_calls w w' =
          opening ++ reading ++
          [span_End (S n); time_Sleep (5 * Duration.Second); reader_Close;
           time_Since] /\
        answers = repeat None 12 ++ [r; None])).
Proof.
  intros Hflag. split; [| split].
  - intros w. apply emits_new_calls. unfold main. rewrite Hflag. emits_auto.
  - intros ctx w. apply emits_new_calls. rewrite Hflag. emits_auto.
  - intros ctx o w. rewrite Hflag.
    destruct (download_returns cfg env ctx o false w)
      as ((runTime & err) & w' & H).
    exists runTime, err, w'. split; [exact H |].
    cbv zeta. unfold download in H.
    walk H; results H; subst; expose_new w w'; norm_ids;
      first
        [ left; eexists; repeat split; reflexivity
        | right; left; do 2 eexists; repeat split; reflexivity
        | right; right; left; do 2 eexists; repeat split; reflexivity
        | right; right; right; eexists (Some _); repeat split; reflexivity
        | right; right; right; exists None; repeat split; reflexivity ].
Qed.

Lemma C1_spans_without_flag_witness :
  forallb not_wrapper
    (new_calls init_world (final (main default_flags calm_env init_world)))
  = true.
Proof.
  exact (proj1 (C1_spans_without_flag default_flags calm_env eq_refl)
           init_world).
Defined.

(** ** An unknown transport mode *)

(** C8: when [-api] is none of [http1], [http2] and [grpc-dp], the process
    logs [invalid -api] and exits with status 1; that log line is the only
    call it makes, so no client is built and nothing goes over the network,
    and the package-level client is left as it was. *)
Theorem C8_unknown_api_is_fatal (cfg : Config) (env : Env) (w : World) :
  api cfg <> http1 -> api cfg <> http2 -> api cfg <> dp ->
  exists w',
    main cfg env w = Halt (os_Exit 1) w' /\
    new_calls w w' = [log_Output "invalid -api" []] /\
    client w' = client w.
Proof.
  intros H1 H2 Hdp.
  apply String.eqb_neq in H1, H2, Hdp.
  unfold main, getClient, bind. rewrite Hdp, H2, H1.
  eexists. split; [reflexivity |]. split; [| reflexivity].
  now apply new_calls_intro
    with (d := [{| at_time := clock w; what := log_Output "invalid -api" [];
                   failed := None |}]).
Qed.

Lemma C8_unknown_api_witness :
  exists w',
    main bad_api_flags calm_env init_world = Halt (os_Exit 1) w' /\
    new_calls init_world w' = [log_Output "invalid -api" []] /\
    client w' = client init_world.
Proof.
  apply (C8_unknown_api_is_fatal bad_api_flags calm_env init_world);
    apply String.eqb_neq; reflexivity.
Defined.

(** ** Teardown of the tracing pipeline *)

(** A run of [main] that returns ends with the teardown: flush, then
    shutdown. *)
Lemma main_return_runs_teardown (cfg : Config) (env : Env) (w w' : World) :
  main cfg env w = Ret tt w' ->
  exists cs, calls w' = cs ++ [tp_ForceFlush; tp_Shutdown].
Proof.
  intros H. unfold main in H. walk H;
    match goal with
    | S : enableTracing _ _ _ = Ret ?close _ |- _ =>
        unfold enableTracing in S; walk S; subst close
    end;
    unfold teardown in H; walk H;
    match goal with
    | L2 : rtrace w' = _ :: rtrace ?x, L1 : rtrace ?x = _ :: rtrace ?y |- _ =>
        exists (calls y); unfold calls, events; rewrite L2, L1; cbn [rev];
        rewrite <- app_assoc, map_app; reflexivity
    end.
Qed.

(** C6 fails on the code: when the upload fails, [log.Fatalf] ends the
    process with status 1 right after the log line, and neither
    [tp.ForceFlush] nor [tp.Shutdown] is ever called, although [main] had
    deferred the teardown. *)
Theorem C6_fatal_upload_skips_teardown :
  let run := main default_flags broken_writer_env init_world in
  let o := {| oh_client := ClientHTTP2; oh_bucket := "mhall-golang-test";
              oh_object := "trace_3f2c" |} in
  run = Halt (os_Exit 1) (final run) /\
  calls (final run) =
    [storage_NewClient; texporter_New; resource_New "my-resource-with-attr";
     sdktrace_NewTracerProvider; otel_SetTracerProvider;
     uuid_New; time_Now; object_NewWriter None o;
     time_Sleep (1 * Duration.Second); io_CopyN_rand (10 * 1024 * 1024);
     writer_Close; time_Since;
     log_Output "upload failed: %v\n"
       [AErr (Errorf "io.CopyN: " (ErrNew "write refused"))]] /\
  existsb is_teardown (calls (final run)) = false.
Proof. repeat split; vm_compute; reflexivity. Qed.

(** ** The printed total *)

Lemma Duration_add_zero (d u : Z) :
  Duration.add (Duration.add 0 d) u = Duration.add u d.
Proof.
  unfold Duration.add, Duration.wrap. f_equal.
  replace (0 + d + 2 ^ 63) with (d + 2 ^ 63) by lia.
  replace ((d + 2 ^ 63) mod 2 ^ 64 - 2 ^ 63 + u + 2 ^ 63)
    with ((d + 2 ^ 63) mod 2 ^ 64 + u) by lia.
  rewrite Zplus_mod_idemp_l. f_equal. lia.
Qed.

Lemma Duration_add_exact (u d : Z) :
  Duration.min_int64 <= u + d <= Duration.max_int64 ->
  Duration.add u d = u + d.
Proof.
  unfold Duration.add, Duration.wrap, Duration.min_int64, Duration.max_int64.
  intros H. rewrite Z.mod_small; lia.
Qed.

Lemma upload_duration_range (cfg : Config) (env : Env) (ctx : Ctx)
  (withSpan : bool) (w w' : World) (runTime : Z) (o : ObjectHandle)
  (err : option error) :
  upload cfg env ctx withSpan w = Ret (runTime, o, err) w' ->
  0 <= runTime <= Duration.max_int64.
Proof.
  intros H. unfold upload in H.
  destruct withSpan; walk H; results H; subst;
    unfold Duration.sub, Duration.min_int64, Duration.max_int64;
    cbn [pause] in *; lia.
Qed.

Lemma download_duration_range (cfg : Config) (env : Env) (ctx : Ctx)
  (o : ObjectHandle) (withSpan : bool) (w w' : World) (runTime : Z)
  (err : option error) :
  download cfg env ctx o withSpan w = Ret (runTime, err) w' ->
  0 <= runTime <= Duration.max_int64.
Proof.
  intros H. unfold download in H.
  destruct withSpan; walk H; results H; subst;
    unfold Duration.sub, Duration.min_int64, Duration.max_int64;
    cbn [pause] in *; lia.
Qed.

Lemma printed_nil (cs : list call) :
  forallb not_printf cs = true -> printed_durations cs = [].
Proof.
  induction cs as [| c cs IH]; [reflexivity |].
  cbn [forallb]. intros H. apply andb_prop in H. destruct H as (Hc & Hcs).
  unfold printed_durations in *. cbn [flat_map]. rewrite (IH Hcs).
  destruct c; try reflexivity. discriminate Hc.
Qed.

Lemma printed_cons (w1 w0 : World) (e : entry) :
  rtrace w1 = e :: rtrace w0 ->
  printed_durations (calls w1) =
  printed_durations (calls w0) ++ printed_durations [what e].
Proof.
  intros L. unfold calls, events, printed_durations. rewrite L. cbn [rev].
  now rewrite map_app, flat_map_app.
Qed.

Lemma printed_same (w1 w0 : World) :
  rtrace w1 = rtrace w0 ->
  printed_durations (calls w1) = printed_durations (calls w0).
Proof. intros L. unfold calls, events. now rewrite L. Qed.

Lemma printed_quiet {A} (m : M World A) (w0 w1 : World) (a : A) :
  emits not_printf m -> m w0 = Ret a w1 ->
  printed_durations (calls w1) = printed_durations (calls w0).
Proof.
  intros Hm E. destruct (Hm w0) as (d & T & F). rewrite E in T.
  cbn [final] in T. unfold calls, events. rewrite T, rev_app_distr, map_app.
  unfold printed_durations at 1. rewrite flat_map_app.
  fold (printed_durations (map what (rev d))).
  rewrite (printed_nil (map what (rev d))); [apply app_nil_r |].
  apply forallb_forall. intros c Hc.
  apply in_map_iff in Hc. destruct Hc as (e & <- & He). apply in_rev in He.
  rewrite forallb_forall in F. now apply F.
Qed.

Lemma getClient_quiet (cfg : Config) (env : Env) (ctx : Ctx) :
  emits not_printf (getClient cfg env ctx).
Proof. emits_auto. Qed.

Lemma enableTracing_quiet (env : Env) (ctx : Ctx) :
  emits not_printf (enableTracing env ctx).
Proof. emits_auto. Qed.

Lemma upload_quiet (cfg : Config) (env : Env) (ctx : Ctx) (withSpan : bool) :
  emits not_printf (upload cfg env ctx withSpan).
Proof. emits_auto. Qed.

Lemma download_quiet (cfg : Config) (env : Env) (ctx : Ctx)
  (o : ObjectHandle) (withSpan : bool) :
  emits not_printf (download cfg env ctx o withSpan).
Proof. emits_auto. Qed.

Ltac printed_chain :=
  repeat match goal with
         | L : rtrace ?x = _ :: rtrace _ |- context [calls ?x] =>
             rewrite (printed_cons _ _ _ L)
         | L : rtrace ?x = rtrace _ |- context [calls ?x] =>
             rewrite (printed_same _ _ L)
         | S : getClient _ _ _ _ = Ret _ ?x |- context [calls ?x] =>
             rewrite (printed_quiet _ _ _ _ (getClient_quiet _ _ _) S)
         | S : enableTracing _ _ _ = Ret _ ?x |- context [calls ?x] =>
             rewrite (printed_quiet _ _ _ _ (enableTracing_quiet _ _) S)
         | S : upload _ _ _ _ _ = Ret _ ?x |- context [calls ?x] =>
             rewrite (printed_quiet _ _ _ _ (upload_quiet _ _ _ _) S)
         | S : download _ _ _ _ _ _ = Ret _ ?x |- context [calls ?x] =>
             rewrite (printed_quiet _ _ _ _ (download_quiet _ _ _ _ _) S)
         end.

Lemma extends_refl (w : World) : extends w w.
Proof. now exists []. Qed.

Lemma extends_cons (w y x : World) (e : entry) :
  rtrace x = e :: rtrace y -> extends w y -> extends w x.
Proof. intros L (d & T). exists (e :: d). now rewrite L, T. Qed.

Lemma extends_same (w y x : World) :
  rtrace x = rtrace y -> extends w y -> extends w x.
Proof. intros L (d & T). exists d. now rewrite L. Qed.

Lemma extends_run {A} (p : call -> bool) (m : M World A) (w y x : World)
  (a : A) :
  emits p m -> m y = Ret a x -> extends w y -> extends w x.
Proof.
  intros Hm E (d & T). destruct (Hm y) as (d' & T' & _).
  rewrite E in T'. cbn [final] in T'.
  exists (d' ++ d). now rewrite T', T, app_assoc.
Qed.

Ltac extends_chain :=
  repeat first
    [ apply extends_refl
    | match goal with
      | L : rtrace ?x = _ :: rtrace _ |- extends _ ?x =>
          apply (extends_cons _ _ _ _ L)
      | L : rtrace ?x = rtrace _ |- extends _ ?x =>
          apply (extends_same _ _ _ L)
      | S : getClient _ _ _ _ = Ret _ ?x |- extends _ ?x =>
          apply (extends_run _ _ _ _ _ _ (getClient_quiet _ _ _) S)
      | S : enableTracing _ _ _ = Ret _ ?x |- extends _ ?x =>
          apply (extends_run _ _ _ _ _ _ (enableTracing_quiet _ _) S)
      | S : upload _ _ _ _ _ = Ret _ ?x |- extends _ ?x =>
          apply (extends_run _ _ _ _ _ _ (upload_quiet _ _ _ _) S)
      | S : download _ _ _ _ _ _ = Ret _ ?x |- extends _ ?x =>
          apply (extends_run _ _ _ _ _ _ (download_quiet _ _ _ _ _) S)
      end ].

(** ** The nil client is out of reach *)

Section Guarded.

Variables (cfg : Config) (env : Env) (need : bool).

Lemma guarded_ret {A} (a : A) : guarded need (@ret World A a).
Proof. intros w Hw. exact Hw. Qed.

Lemma guarded_exit {A} (code : Z) :
  guarded need (@halt_with World A (os_Exit code)).
Proof. intros w Hw. exact I. Qed.

Lemma guarded_bind_with {A B} (Q : A -> Prop) (m : M World A)
  (k : A -> M World B) :
  (forall w a w', m w = Ret a w' -> Q a) ->
  guarded need m -> (forall a, Q a -> guarded need (k a)) ->
  guarded need (bind m k).
Proof.
  intros HQ Hm Hk w Hw. unfold bind. specialize (Hm w Hw).
  destruct (m w) as [a w1 | h w1] eqn:E; [| exact Hm].
  exact (Hk a (HQ _ _ _ E) w1 Hm).
Qed.

Lemma guarded_bind {A B} (m : M World A) (k : A -> M World B) :
  guarded need m -> (forall a, guarded need (k a)) ->
  guarded need (bind m k).
Proof.
  intros Hm Hk. apply (guarded_bind_with (fun _ => True)); auto.
Qed.

Lemma guarded_bind_ret {A B} (a : A) (k : A -> M World B) :
  guarded need (k a) -> guarded need (bind (ret a) k).
Proof. intros Hk w. exact (Hk w). Qed.

Lemma guarded_try_call (c : call) : guarded need (try_call env c).
Proof. intros w Hw. exact Hw. Qed.

Lemma guarded_do_call (c : call) : guarded need (do_call env c).
Proof. intros w Hw. exact Hw. Qed.

Lemma guarded_sleep (d : Z) : guarded need (sleep env d).
Proof. intros w Hw. exact Hw. Qed.

Lemma guarded_now : guarded need (now env).
Proof. intros w Hw. exact Hw. Qed.

Lemma guarded_since (start : Z) : guarded need (since env start).
Proof. intros w Hw. exact Hw. Qed.

Lemma guarded_uuid_NewString : guarded need (uuid_NewString env).
Proof. intros w Hw. exact Hw. Qed.

Lemma guarded_Tracer_Start (ctx : Ctx) (tracer name : string) :
  guarded need (Tracer_Start env ctx tracer name).
Proof. intros w Hw. exact Hw. Qed.

Lemma guarded_SetAttributes (id : nat) (kvs : list KeyValue) :
  guarded need (SetAttributes env id kvs).
Proof. intros w Hw. exact Hw. Qed.

Lemma guarded_End (id : nat) : guarded need (End env id).
Proof. intros w Hw. exact Hw. Qed.

Lemma guarded_get_client : guarded need get_client.
Proof. intros w Hw. exact Hw. Qed.

Lemma guarded_set_client (c : Client) : guarded need (set_client (Some c)).
Proof. intros w Hw _. discriminate. Qed.

End Guarded.

Lemma guarded_set_any (c : option Client) : guarded false (set_client c).
Proof. intros w Hw. discriminate. Qed.

Lemma guarded_deref_client : guarded true deref_client.
Proof.
  intros w Hw. unfold deref_client, bind, get_client.
  destruct (client w) eqn:E; cbn.
  - intros _. rewrite E. discriminate.
  - now apply Hw.
Qed.

Lemma guarded_after_set {B} (c : Client) (k : M World B) :
  guarded true k ->
  guarded false (bind (set_client (Some c)) (fun _ => k)).
Proof.
  intros Hk w _. unfold bind, set_client.
  match goal with
  | |- match k ?w2 with _ => _ end =>
      assert (Hc : true = true -> client w2 <> None) by (intros _; discriminate);
      specialize (Hk w2 Hc); destruct (k w2) as [b w3 | h w3]
  end; [discriminate | exact Hk].
Qed.

Ltac guarded_step :=
  first
    [ progress cbv beta iota zeta
    | apply guarded_ret
    | apply guarded_exit
    | apply guarded_try_call
    | apply guarded_do_call
    | apply guarded_sleep
    | apply guarded_now
    | apply guarded_since
    | apply guarded_uuid_NewString
    | apply guarded_get_client
    | apply guarded_set_client
    | apply guarded_set_any
    | apply guarded_deref_client
    | apply guarded_Tracer_Start
    | apply guarded_SetAttributes
    | apply guarded_End
    | match goal with
      | |- guarded _ (bind (enableTracing ?e ?c) _) =>
          apply (guarded_bind_with _ (fun close => close = teardown e c));
          [ intros ? ? ? HT; exact (enableTracing_close _ _ _ _ _ HT)
          | | intros ? -> ]
      | |- guarded _ (enableTracing _ _) => unfold enableTracing
      end
    | apply guarded_bind_ret
    | apply guarded_bind; [| intro]
    | match goal with
      | |- guarded _ (match ?x with _ => _ end) => destruct x
      end ].

Ltac guarded_auto :=
  unfold getClient, teardown, upload, download,
    log_Fatalf, log_Fatalln, log_Fatal, log_Println;
  repeat guarded_step.

(** [upload] is the one place that dereferences the package-level client;
    [main] gets there only after [getClient] has answered a client, so the
    panic of the model (which, unlike a Go panic, does not unwind [main]'s
    deferred calls) never happens in a run of [main]. *)
Lemma main_never_panics (cfg : Config) (env : Env) (w w' : World)
  (msg : string) :
  main cfg env w <> Halt (panic msg) w'.
Proof.
  assert (G : guarded false (main cfg env)).
  { unfold main. cbv zeta. apply guarded_bind; [guarded_auto |].
    intros [c |].
    - apply guarded_after_set. guarded_auto.
    - intros w0 _. exact I. }
  intros E. specialize (G w). rewrite E in G. apply G. discriminate.
Qed.

(** ** Runs that end the process *)

Section Halts.

Variables (cfg : Config) (env : Env).

Lemma bind_Halt {A B} (m : M World A) (k : A -> M World B)
  (w w' : World) (h : halt) :
  bind m k w = Halt h w' ->
  m w = Halt h w' \/ exists a w1, m w = Ret a w1 /\ k a w1 = Halt h w'.
Proof.
  unfold bind. destruct (m w) as [a w1 | h1 w1].
  - intros H. right. now exists a, w1.
  - intros H. left. inversion H; subst. reflexivity.
Qed.

Lemma log_Fatalf_Halt {A} format a w h w' :
  @log_Fatalf env A format a w = Halt h w' ->
  h = os_Exit 1 /\
  logged env (log_Output format [a]) None w w' /\ same_heap w w'.
Proof.
  unfold log_Fatalf, bind, do_call, halt_with. intros H.
  inversion H; subst. repeat split.
Qed.

Lemma log_Fatalln_Halt {A} msg w h w' :
  @log_Fatalln env A msg w = Halt h w' ->
  h = os_Exit 1 /\
  logged env (log_Output msg []) None w w' /\ same_heap w w'.
Proof.
  unfold log_Fatalln, bind, do_call, halt_with. intros H.
  inversion H; subst. repeat split.
Qed.

Lemma log_Fatal_Halt {A} msg e w h w' :
  @log_Fatal env A msg e w = Halt h w' ->
  h = os_Exit 1 /\
  logged env (log_Output msg [AErr e]) None w w' /\ same_heap w w'.
Proof.
  unfold log_Fatal, bind, do_call, halt_with. intros H.
  inversion H; subst. repeat split.
Qed.

Lemma deref_client_Halt w h w' :
  deref_client w = Halt h w' -> exists msg, h = panic msg.
Proof.
  unfold deref_client, bind, get_client, ret, halt_with.
  destruct (client w); [discriminate |]. intros H. inversion H; subst. eauto.
Qed.

End Halts.

(** [halt_walk H] takes [H : m w = Halt h w'] and follows the code of [m]
    to the call that ended the process. *)
Ltac halt_leaf H :=
  cbv beta iota zeta in H;
  lazymatch type of H with
  | bind _ _ _ = Halt _ _ => halt_walk H
  | log_Fatalf _ _ _ _ = Halt _ _ =>
      apply log_Fatalf_Halt in H; destruct H as (-> & ? & ?)
  | log_Fatalln _ _ _ = Halt _ _ =>
      apply log_Fatalln_Halt in H; destruct H as (-> & ? & ?)
  | log_Fatal _ _ _ _ = Halt _ _ =>
      apply log_Fatal_Halt in H; destruct H as (-> & ? & ?)
  | ret _ _ = Halt _ _ => discriminate H
  | try_call _ _ _ = Halt _ _ => discriminate H
  | do_call _ _ _ = Halt _ _ => discriminate H
  | sleep _ _ _ = Halt _ _ => discriminate H
  | now _ _ = Halt _ _ => discriminate H
  | since _ _ _ = Halt _ _ => discriminate H
  | uuid_NewString _ _ = Halt _ _ => discriminate H
  | log_Println _ _ _ = Halt _ _ => discriminate H
  | get_client _ = Halt _ _ => discriminate H
  | set_client _ _ = Halt _ _ => discriminate H
  | Tracer_Start _ _ _ _ _ = Halt _ _ => discriminate H
  | SetAttributes _ _ _ _ = Halt _ _ => discriminate H
  | End _ _ _ = Halt _ _ => discriminate H
  | (match err_of ?e ?i ?c with _ => _ end) _ = Halt _ _ =>
      let E := fresh "E" in
      destruct (err_of e i c) eqn:E; halt_leaf H
  | (match ?x with _ => _ end) _ = Halt _ _ =>
      destruct x; halt_leaf H
  | _ => idtac
  end;
  repeat match goal with
         | L : logged _ _ _ _ _ |- _ => destruct L
         | L : same_heap _ _ |- _ => destruct L
         end
with halt_walk H :=
  cbv beta iota zeta in H;
  lazymatch type of H with
  | bind _ _ _ = Halt _ _ =>
      let a := fresh "a" in
      let w1 := fresh "w" in
      let S := fresh "S" in
      apply bind_Halt in H; destruct H as [H | (a & w1 & S & H)];
      [ halt_leaf H | prim S; halt_walk H ]
  | _ => halt_leaf H
  end.

Lemma upload_Halt (cfg : Config) (env : Env) (ctx : Ctx) (withSpan : bool)
  (w w' : World) (h : halt) :
  upload cfg env ctx withSpan w = Halt h w' -> exists msg, h = panic msg.
Proof.
  intros H. unfold upload in H. halt_walk H.
  all: exact (deref_client_Halt _ _ _ H).
Qed.

Lemma getClient_Halt (cfg : Config) (env : Env) (ctx : Ctx)
  (w w' : World) (h : halt) :
  getClient cfg env ctx w = Halt h w' -> h = os_Exit 1.
Proof. intros H. unfold getClient in H. halt_walk H; reflexivity. Qed.

Lemma enableTracing_Halt (env : Env) (ctx : Ctx) (w w' : World) (h : halt) :
  enableTracing env ctx w = Halt h w' -> h = os_Exit 1.
Proof. intros H. unfold enableTracing in H. halt_walk H; reflexivity. Qed.

(** ** Calls between two worlds of a run *)

Lemma within_refl p w : within p w w.
Proof. now exists []. Qed.

Lemma within_cons p w y x e :
  rtrace x = e :: rtrace y -> p (what e) = true -> within p w y ->
  within p w x.
Proof.
  intros L Hp (d & T & F). exists (e :: d). split.
  - now rewrite L, T.
  - cbn [forallb]. now rewrite Hp, F.
Qed.

Lemma within_same p w y x :
  rtrace x = rtrace y -> within p w y -> within p w x.
Proof. intros L (d & T & F). exists d. now rewrite L. Qed.

Lemma within_run {A} p (m : M World A) w y x (o : outcome World A) :
  emits p m -> m y = o -> final o = x -> within p w y -> within p w x.
Proof.
  intros Hm E <- (d & T & F). destruct (Hm y) as (d' & T' & F').
  rewrite E in T'. exists (d' ++ d). split.
  - now rewrite T', T, app_assoc.
  - now rewrite forallb_app, F', F.
Qed.

Lemma within_new_calls p w x :
  within p w x -> forallb p (new_calls w x) = true.
Proof.
  intros (d & T & F). rewrite (new_calls_intro _ _ d T).
  apply forallb_forall. intros c Hc.
  apply in_map_iff in Hc. destruct Hc as (e & <- & He). apply in_rev in He.
  rewrite forallb_forall in F. now apply F.
Qed.

Lemma within_printed w x :
  within not_printf w x ->
  printed_durations (calls x) = printed_durations (calls w).
Proof.
  intros (d & T & F). unfold calls, events.
  rewrite T, rev_app_distr, map_app.
  unfold printed_durations at 1. rewrite flat_map_app.
  fold (printed_durations (map what (rev d))).
  rewrite (printed_nil (map what (rev d))); [apply app_nil_r |].
  apply forallb_forall. intros c Hc.
  apply in_map_iff in Hc. destruct Hc as (e & <- & He). apply in_rev in He.
  rewrite forallb_forall in F. now apply F.
Qed.

Lemma within_extends p w x : within p w x -> extends w x.
Proof. intros (d & T & _). now exists d. Qed.

Ltac within_chain :=
  repeat first
    [ apply within_refl
    | match goal with
      | L : rtrace ?x = _ :: rtrace _ |- within _ _ ?x =>
          apply (within_cons _ _ _ _ _ L); [reflexivity |]
      | L : rtrace ?x = rtrace _ |- within _ _ ?x =>
          apply (within_same _ _ _ _ L)
      | S : ?m ?y = Ret _ ?x |- within ?p _ ?x =>
          apply (within_run p m _ y x _ ltac:(emits_auto) S eq_refl)
      | S : ?m ?y = Halt _ ?x |- within ?p _ ?x =>
          apply (within_run p m _ y x _ ltac:(emits_auto) S eq_refl)
      end ].

(** The leaves of a run of [main]. *)
Ltac both_succeeded :=
  match goal with
  | Su : upload _ _ _ _ ?wu = Ret (?U, ?o, None) ?wd,
    Sd : download _ _ _ ?o _ ?wd = Ret (?D, None) ?wp |- _ =>
      left; exists wu, wd, wp, U, D, o;
      pose proof (upload_duration_range _ _ _ _ _ _ _ _ _ Su) as RU;
      pose proof (download_duration_range _ _ _ _ _ _ _ _ _ Sd) as RD;
      (split; [clear Su Sd; extends_chain |]);
      (split; [exact Su |]); (split; [exact Sd |]);
      (split; [clear Su Sd; extends_chain |]);
      split;
      [ printed_chain; cbn [printed_durations flat_map what app];
        rewrite ?app_nil_r; f_equal; f_equal; apply Duration_add_zero
      | split; [lia | split; [lia |]];
        intros Hsum; apply Duration_add_exact;
        unfold Duration.min_int64; lia ]
  end.

Ltac ended_early :=
  right; split; [reflexivity |];
  split; [apply within_printed; within_chain |].

Ltac download_failed w w' :=
  ended_early;
  match goal with
  | Su : upload _ _ _ _ ?wu = Ret (?U, ?o, None) ?wd,
    Sd : download _ _ _ ?o _ ?wd = Ret (?D, Some ?e) ?wp |- _ =>
      right; right; exists wu, wd, wp, U, D, o, e;
      (split; [clear Su Sd; extends_chain |]);
      (split; [exact Su |]); (split; [exact Sd |]);
      expose_new wp w'; reflexivity
  end.

Ltac upload_failed w w' :=
  ended_early;
  match goal with
  | Su : upload _ _ _ _ ?wu = Ret (?U, ?o, Some ?e) ?wd |- _ =>
      right; left; exists wu, wd, U, o, e;
      (split; [clear Su; extends_chain |]);
      (split; [exact Su |]);
      expose_new wd w'; reflexivity
  end.

Ltac before_upload :=
  ended_early; left; apply within_new_calls; within_chain.

(** C7: in every run of [main] in which both phases succeed, that is, the
    upload phase, started in some world [wu], reports a duration [U] and no
    error, and the download phase, started where the upload ended and on
    the object the upload returned, reports a duration [D] and no error,
    the one duration [fmt.Printf] prints is their [time.Duration] sum
    [U + D]: the third term of the source, [timetakenC], is zero. This
    holds whether the teardown that follows lets [main] return or ends the
    process. Both durations are non-negative, and the int64 sum is the
    exact sum unless it exceeds the largest [time.Duration] (some 292
    years). Every other run has ended with exit status 1 and has printed
    nothing: either the upload phase was never started, or the error of
    the upload phase, or else the error of the download phase, is the last
    line it logged. *)
Theorem C7_printed_total (cfg : Config) (env : Env) (w : World) :
  let run := main cfg env w in
  let w' := final run in
  let ctx := context_Background in
  (exists wu wd wp U D o,
     extends w wu /\
     upload cfg env ctx (addSpans cfg) wu = Ret (U, o, None) wd /\
     download cfg env ctx o (addSpans cfg) wd = Ret (D, None) wp /\
     extends wp w' /\
     printed_durations (calls w') =
       printed_durations (calls w) ++ [Duration.add U D] /\
     0 <= U /\ 0 <= D /\
     (U + D <= Duration.max_int64 -> Duration.add U D = U + D)) \/
  (run = Halt (os_Exit 1) w' /\
   printed_durations (calls w') = printed_durations (calls w) /\
   (forallb (fun c => negb (is_uuid_New c)) (new_calls w w') = true \/
    (exists wu wd U o e,
       extends w wu /\
       upload cfg env ctx (addSpans cfg) wu = Ret (U, o, Some e) wd /\
       new_calls wd w' = [log_Output "upload failed: %v\n" [AErr e]]) \/
    (exists wu wd wp U D o e,
       extends w wu /\
       upload cfg env ctx (addSpans cfg) wu = Ret (U, o, None) wd /\
       download cfg env ctx o (addSpans cfg) wd = Ret (D, Some e) wp /\
       new_calls wp w' = [log_Output "download failed: %v\n" [AErr e]]))).
Proof.
  cbv zeta.
  destruct (main cfg env w) as [[] w' | h w'] eqn:H; cbn [final].
  - unfold main in H. walk H;
      match goal with
      | S : enableTracing _ _ _ = Ret ?close _ |- _ =>
          pose proof (enableTracing_close _ _ _ _ _ S); subst close
      end;
      unfold teardown in H; walk H; both_succeeded.
  - pose proof H as Hmain. unfold main in H. halt_walk H;
      try match goal with
          | Hc : ?close _ = Halt _ _,
            S : enableTracing _ _ _ = Ret ?close _ |- _ =>
              pose proof (enableTracing_close _ _ _ _ _ S); subst close;
              unfold teardown in Hc; halt_walk Hc
          end;
      try match goal with
          | Hu : upload _ _ _ _ _ = Halt _ _ |- _ =>
              exfalso; destruct (upload_Halt _ _ _ _ _ _ _ Hu) as (msg & ->);
              exact (main_never_panics _ _ _ _ _ Hmain)
          | Hd : download ?c ?e ?x ?o ?b ?y = Halt _ _ |- _ =>
              exfalso;
              destruct (download_returns c e x o b y) as (r & wr & Hr);
              congruence
          | Hg : getClient _ _ _ _ = Halt _ _ |- _ =>
              pose proof (getClient_Halt _ _ _ _ _ _ Hg); subst h
          | He : enableTracing _ _ _ = Halt _ _ |- _ =>
              pose proof (enableTracing_Halt _ _ _ _ _ He); subst h
          end;
      clear Hmain;
      first
        [ solve [both_succeeded]
        | solve [download_failed w w']
        | solve [upload_failed w w']
        | before_upload ].
Qed.

Lemma C7_printed_total_witness :
  let run := main default_flags stuck_shutdown_env init_world in
  returned run = false /\
  exists U D,
    printed_durations (calls (final run)) = [Duration.add U D] /\
    0 <= U /\ 0 <= D.
Proof.
  intros run. split; [vm_compute; reflexivity |].
  destruct (C7_printed_total default_flags stuck_shutdown_env init_world)
    as [(wu & wd & wp & U & D & o & _ & _ & _ & _ & Hp & HU & HD & _)
       | (_ & Hp & _)].
  - exists U, D. repeat split; assumption.
  - exfalso. vm_compute in Hp. discriminate Hp.
Defined.

End BenchmarkFacts.

(** * The paths of the Transfer Benchmark *)

(** ** Building the client *)

Module ClientFacts.
Import TransferBenchmark BenchmarkObs PathObs BenchmarkFacts.
Local Open Scope list_scope.

(** Rewrites [new_calls w w'] and [new_events w w'] for a world [w'] that
    is given by the code that built it. *)
Ltac expose_run w :=
  repeat match goal with
         | |- context [new_calls w ?w'] =>
             let l := eval cbn in (rtrace w') in
             let d := strip_tail l (rtrace w) in
             rewrite (new_calls_intro w w' d eq_refl)
         | |- context [new_events w ?w'] =>
             let l := eval cbn in (rtrace w') in
             let d := strip_tail l (rtrace w) in
             rewrite (new_events_intro w w' d eq_refl)
         end.

(** Computes a run without touching the observations made on it. *)
Ltac run_cbn := cbn -[new_calls new_events].

(** What [getClient] returns is never nil. *)
Lemma getClient_Some (cfg : Config) (env : Env) (ctx : Ctx) (w w' : World)
  (c : option Client) :
  getClient cfg env ctx w = Ret c w' -> exists c', c = Some c'.
Proof.
  intros H. unfold getClient in H.
  destruct (String.eqb (api cfg) dp);
    [| destruct (String.eqb (api cfg) http2);
       [| destruct (String.eqb (api cfg) http1)]];
    walk H; try (apply get_client_Ret in H; destruct H as (-> & <-));
    subst; eauto.
Qed.

(** X1: whenever [getClient] returns, it returns a client, never nil, of
    the kind the [-api] flag selects, after exactly the calls of that mode,
    each of which answered nil: [grpc-dp] sets
    [GOOGLE_CLOUD_ENABLE_DIRECT_PATH_XDS] and then builds the gRPC client,
    [http2] builds the default client, [http1] builds a transport and then
    a client on it. Only the [http1] mode writes the package-level
    [client] itself. *)
Theorem getClient_builds_selected_client
  (cfg : Config) (env : Env) (ctx : Ctx) (w w' : World) (c : option Client) :
  getClient cfg env ctx w = Ret c w' ->
  Forall (fun e => failed e = None) (new_events w w') /\
  ((api cfg = dp /\ c = Some ClientGRPC /\ client w' = client w /\
    new_calls w w' =
      [os_Setenv "GOOGLE_CLOUD_ENABLE_DIRECT_PATH_XDS" "true";
       storage_NewGRPCClient]) \/
   (api cfg = http2 /\ c = Some ClientHTTP2 /\ client w' = client w /\
    new_calls w w' = [storage_NewClient]) \/
   (api cfg = http1 /\ c = Some ClientHTTP1 /\ client w' = Some ClientHTTP1 /\
    new_calls w w' =
      [htransport_NewTransport 100 100; storage_NewClient_WithHTTPClient])).
Proof.
  intros H. unfold getClient in H.
  destruct (String.eqb (api cfg) dp) eqn:Edp;
    [| destruct (String.eqb (api cfg) http2) eqn:E2;
       [| destruct (String.eqb (api cfg) http1) eqn:E1]];
    rewrite ?String.eqb_eq in *;
    walk H; try (apply get_client_Ret in H; destruct H as (-> & <-));
    subst; expose_new w w';
    (split; [repeat constructor |]).
  - left. repeat split; [assumption | congruence].
  - right; left. repeat split; [assumption | congruence].
  - right; right. repeat split; congruence.
Qed.

Lemma getClient_builds_selected_client_witness :
  exists w',
    getClient http1_flags calm_env None init_world = Ret (Some ClientHTTP1) w' /\
    client w' = Some ClientHTTP1.
Proof.
  eexists. split; [vm_compute; reflexivity |].
  destruct (getClient_builds_selected_client http1_flags calm_env None
              init_world _ _ eq_refl)
    as (_ & [(E & _) | [(E & _) | (_ & _ & E & _)]]);
    [discriminate E | discriminate E | exact E].
Defined.

(** X2: no run of [main] logs [client is nil]: the check that follows
    [getClient] cannot fire, since [getClient] either returns a client or
    ends the process. *)
Theorem main_never_reports_nil_client (cfg : Config) (env : Env) (w : World) :
  forallb not_nil_report (new_calls w (final (main cfg env w))) = true.
Proof.
  apply emits_new_calls. unfold main. cbv zeta.
  apply (emits_bind_with _ (fun c => exists c', c = Some c')).
  - intros w0 c w1 H. exact (getClient_Some _ _ _ _ _ _ H).
  - emits_auto.
  - intros c (c' & ->). emits_auto.
Qed.

(** X3: the [http1] mode, path by path. When the transport cannot be
    built, the process exits with status 1 and the log line prints the base
    transport instead of the error, which is lost; the package-level client
    is untouched. When the client cannot be built on the transport, the
    package-level client has already been overwritten with nil by the time
    the error is logged and the process exits. Otherwise the client is
    returned and stored. *)
Theorem getClient_http1_failures (cfg : Config) (env : Env) (ctx : Ctx)
  (w : World) :
  api cfg = http1 ->
  let n := List.length (rtrace w) in
  let transport := htransport_NewTransport 100 100 in
  let build := storage_NewClient_WithHTTPClient in
  let run := getClient cfg env ctx w in
  match err_of env n transport, err_of env (S n) build with
  | Some _, _ =>
      run = Halt (os_Exit 1) (final run) /\
      new_calls w (final run) =
        [transport; log_Output "creating transport: %v" [ATransport 100 100]] /\
      client (final run) = client w
  | None, Some e =>
      run = Halt (os_Exit 1) (final run) /\
      new_calls w (final run) =
        [transport; build; log_Output "NewClient: %v" [AErr e]] /\
      client (final run) = None
  | None, None =>
      run = Ret (Some ClientHTTP1) (final run) /\
      new_calls w (final run) = [transport; build] /\
      client (final run) = Some ClientHTTP1
  end.
Proof.
  intros Hapi. cbv zeta. unfold getClient. rewrite Hapi.
  change (String.eqb http1 dp) with false.
  change (String.eqb http1 http2) with false.
  change (String.eqb http1 http1) with true.
  cbv iota.
  unfold bind, try_call, log_Fatalf, do_call, halt_with, ret, set_client,
    get_client.
  run_cbn.
  destruct (err_of env (List.length (rtrace w)) _); run_cbn.
  - expose_run w. repeat split.
  - destruct (err_of env (S (List.length (rtrace w))) _); run_cbn;
      expose_run w; repeat split.
Qed.

Lemma getClient_http1_failures_witness :
  client (final (getClient http1_flags calm_env None ready_world))
  = Some ClientHTTP1.
Proof.
  exact (proj2 (proj2 (getClient_http1_failures http1_flags calm_env None
                         ready_world eq_refl))).
Defined.

(** X4: in every mode but [http1], [getClient] leaves the package-level
    client as it was, whether it returns or ends the process: there the
    client it builds is a local variable. *)
Theorem getClient_keeps_package_client (cfg : Config) (env : Env) (ctx : Ctx)
  (w : World) :
  api cfg <> http1 ->
  client (final (getClient cfg env ctx w)) = client w.
Proof.
  intros Hapi. apply String.eqb_neq in Hapi.
  unfold getClient. rewrite Hapi.
  destruct (String.eqb (api cfg) dp);
    [| destruct (String.eqb (api cfg) http2)];
    unfold bind, try_call, log_Fatalf, log_Fatalln, do_call, halt_with, ret;
    cbn;
    repeat match goal with
           | |- context [match err_of ?e ?i ?c with _ => _ end] =>
               destruct (err_of e i c); cbn
           end; reflexivity.
Qed.

Lemma getClient_keeps_package_client_witness :
  client (final (getClient dp_flags calm_env None init_world)) = None.
Proof.
  apply (getClient_keeps_package_client dp_flags calm_env None init_world).
  discriminate.
Defined.

End ClientFacts.

(** ** Setting tracing up and tearing it down *)

Module TracingFacts.
Import TransferBenchmark BenchmarkObs PathObs BenchmarkFacts ClientFacts.
Local Open Scope list_scope.

(** X5: a resource detection error in which [errors.Is] finds
    [ErrPartialResource] or [ErrSchemaURLConflict] does not stop
    [enableTracing]: the error is printed with [log.Println], the tracer
    provider is built and installed, and the teardown closure is returned. *)
Theorem enableTracing_tolerates_partial_resource
  (env : Env) (ctx : Ctx) (w : World) (e : error) :
  let n := List.length (rtrace w) in
  let detect := resource_New "my-resource-with-attr" in
  err_of env n texporter_New = None ->
  err_of env (S n) detect = Some e ->
  errors_Is e ErrPartialResource = true \/
  errors_Is e ErrSchemaURLConflict = true ->
  exists w',
    enableTracing env ctx w = Ret (teardown env ctx) w' /\
    new_calls w w' =
      [texporter_New; detect; log_Output "" [AErr e];
       sdktrace_NewTracerProvider; otel_SetTracerProvider].
Proof.
  intros n detect Hexp Hres Hpartial. subst n detect.
  assert (Htol : errors_Is e ErrPartialResource
                 || errors_Is e ErrSchemaURLConflict = true)
    by (apply orb_true_iff; exact Hpartial).
  unfold enableTracing, bind, try_call, log_Fatalf, log_Println, do_call,
    halt_with, ret.
  run_cbn. rewrite Hexp. run_cbn. rewrite Hres. run_cbn. rewrite Htol.
  run_cbn.
  eexists. split; [reflexivity |]. expose_run w. reflexivity.
Qed.

Lemma enableTracing_tolerates_partial_resource_witness :
  returned (enableTracing partial_resource_env None init_world) = true.
Proof.
  destruct (enableTracing_tolerates_partial_resource partial_resource_env None
              init_world wrapped_partial eq_refl eq_refl
              (or_introl eq_refl)) as (w' & -> & _).
  reflexivity.
Defined.

(** X6: [enableTracing] installs the tracer provider once when it returns
    and never when it does not. When it does not return, the process has
    exited with status 1, the last call of the run is its one log line,
    and the error that line prints is the error the call right before it
    answered, which is the only call of the run that failed. *)
Theorem enableTracing_installs_iff_returns (env : Env) (ctx : Ctx) (w : World) :
  let run := enableTracing env ctx w in
  let es := new_events w (final run) in
  count_calls is_SetTracerProvider (new_calls w (final run)) =
    (if returned run then 1 else 0)%nat /\
  (returned run = false ->
   run = Halt (os_Exit 1) (final run) /\
   exists es0 t c e t' format,
     es = es0 ++
          [{| at_time := t; what := c; failed := Some e |};
           {| at_time := t'; what := log_Output format [AErr e];
              failed := None |}] /\
     is_log_Output c = false /\
     Forall (fun x => failed x = None /\ is_log_Output (what x) = false)
            es0).
Proof.
  cbv zeta.
  unfold enableTracing, bind, try_call, log_Fatalf, log_Println, do_call,
    halt_with, ret.
  run_cbn.
  destruct (err_of env (List.length (rtrace w)) _) as [e |]; run_cbn.
  - expose_run w. split; [reflexivity |]. intros _. split; [reflexivity |].
    exists []. do 5 eexists.
    split; [reflexivity |]. split; [reflexivity | constructor].
  - destruct (err_of env (S (List.length (rtrace w))) _) as [e |]; run_cbn.
    + destruct (errors_Is e ErrPartialResource
                || errors_Is e ErrSchemaURLConflict); run_cbn;
        expose_run w.
      * split; [reflexivity | discriminate].
      * split; [reflexivity |]. intros _. split; [reflexivity |].
        eexists [_]. do 5 eexists.
        split; [reflexivity |]. split; [reflexivity |].
        repeat constructor.
    + expose_run w. split; [reflexivity | discriminate].
Qed.

(** X7: the teardown closure always calls [tp.ForceFlush] and then
    [tp.Shutdown]: whatever [ForceFlush] answers is ignored. It returns
    when [Shutdown] answers nil; otherwise it logs that error and exits with
    status 1. *)
Theorem teardown_ignores_flush_error (env : Env) (ctx : Ctx) (w : World) :
  let n := List.length (rtrace w) in
  let run := teardown env ctx w in
  match err_of env (S n) tp_Shutdown with
  | None =>
      run = Ret tt (final run) /\
      new_calls w (final run) = [tp_ForceFlush; tp_Shutdown]
  | Some e =>
      run = Halt (os_Exit 1) (final run) /\
      new_calls w (final run) =
        [tp_ForceFlush; tp_Shutdown; log_Output "" [AErr e]]
  end /\
  answer_of is_teardown (new_events w (final run))
    = Some (err_of env n tp_ForceFlush).
Proof.
  cbv zeta.
  unfold teardown, bind, try_call, log_Fatal, do_call, halt_with, ret.
  run_cbn.
  destruct (err_of env (S (List.length (rtrace w))) _) as [e |]; run_cbn;
    expose_run w; repeat split.
Qed.

End TracingFacts.

(** ** The paths of the upload phase *)

Module UploadFacts.
Import TransferBenchmark BenchmarkObs PathObs BenchmarkFacts ClientFacts.
Local Open Scope list_scope.

(** Running the first step of a sequence. *)
Lemma bind_run {A B} (m : M World A) (k : A -> M World B) (w w1 : World)
  (a : A) :
  m w = Ret a w1 ->
  (exists b w', k a w1 = Ret b w') ->
  exists b w', bind m k w = Ret b w'.
Proof. intros Hm Hk. unfold bind. now rewrite Hm. Qed.

(** With a client in the package-level variable the upload phase hands
    every failure back to its caller. *)
Lemma upload_returns (cfg : Config) (env : Env) (ctx : Ctx) (withSpan : bool)
  (w : World) (c : Client) :
  client w = Some c ->
  exists r w', upload cfg env ctx withSpan w = Ret r w'.
Proof.
  intros Hc. unfold upload. cbv zeta.
  eapply bind_run; [reflexivity |].
  eapply bind_run.
  { unfold deref_client, bind, get_client. cbn [client record_call].
    rewrite Hc. reflexivity. }
  match goal with
  | |- exists b w', ?m ?w0 = Ret b w' =>
      assert (R : returns m) by (repeat returns_step); exact (R w0)
  end.
Qed.

(** X8: with a client in the package-level variable, [upload] always
    returns to its caller; the handle it returns is on that client; and on
    every path, also when the copy fails, it has opened one write stream
    and closed it exactly once. *)
Theorem upload_closes_writer_once
  (cfg : Config) (env : Env) (ctx : Ctx) (withSpan : bool) (w : World)
  (c : Client) :
  client w = Some c ->
  exists runTime o err w',
    upload cfg env ctx withSpan w = Ret (runTime, o, err) w' /\
    oh_client o = c /\
    count_calls is_NewWriter (new_calls w w') = 1%nat /\
    count_calls is_writer_Close (new_calls w w') = 1%nat.
Proof.
  intros Hc.
  destruct (upload_returns cfg env ctx withSpan w c Hc)
    as (((runTime & o) & err) & w' & H).
  exists runTime, o, err, w'. split; [exact H |].
  unfold upload in H.
  destruct withSpan; walk H; results H; subst;
    expose_new w w'; norm_ids;
    (split; [cbn [oh_client]; congruence |]); split; reflexivity.
Qed.

Lemma upload_closes_writer_once_witness :
  exists runTime o err w',
    upload default_flags broken_writer_env None false ready_world
      = Ret (runTime, o, err) w' /\
    count_calls is_writer_Close (new_calls ready_world w') = 1%nat.
Proof.
  destruct (upload_closes_writer_once default_flags broken_writer_env None
              false ready_world ClientHTTP2 eq_refl)
    as (runTime & o & err & w' & H & _ & _ & Hclose).
  now exists runTime, o, err, w'.
Defined.

(** X9: the error [upload] returns. When [io.CopyN] failed it is that
    error behind the prefix [io.CopyN: ], whatever the [w.Close] that follows
    answered (that answer is dropped); otherwise, when [w.Close] failed, it
    is that error behind [w.Close: ]; otherwise it is nil. *)
Theorem upload_error_cause
  (cfg : Config) (env : Env) (ctx : Ctx) (withSpan : bool)
  (w w' : World) (runTime : Z) (o : ObjectHandle) (err : option error) :
  upload cfg env ctx withSpan w = Ret (runTime, o, err) w' ->
  let es := new_events w w' in
  err = match answer_of is_CopyN_rand es, answer_of is_writer_Close es with
        | Some (Some e), _ => Some (Errorf "io.CopyN: " e)
        | _, Some (Some e) => Some (Errorf "w.Close: " e)
        | _, _ => None
        end.
Proof.
  intros H es. subst es. unfold upload in H.
  destruct withSpan; walk H; results H; subst;
    expose_new w w'; reflexivity.
Qed.

Lemma upload_error_cause_witness :
  let w' := final (upload default_flags broken_writer_env None false
                     ready_world) in
  let es := new_events ready_world w' in
  Some (Errorf "io.CopyN: " (ErrNew "write refused")) =
  match answer_of is_CopyN_rand es, answer_of is_writer_Close es with
  | Some (Some e), _ => Some (Errorf "io.CopyN: " e)
  | _, Some (Some e) => Some (Errorf "w.Close: " e)
  | _, _ => None
  end.
Proof.
  intros w'.
  assert (H : upload default_flags broken_writer_env None false ready_world =
              Ret (Duration.Second, sample_object,
                   Some (Errorf "io.CopyN: " (ErrNew "write refused"))) w')
    by (vm_compute; reflexivity).
  exact (upload_error_cause _ _ _ _ _ _ _ _ _ H).
Defined.

(** X10: with [withSpan] set, every return of [upload], failures
    included, ends with the two deferred calls in this order: the timer is
    read, then the span [uploada] is ended. That span is exported once,
    ended, with the object name and the transport mode as attributes and
    the context of the caller as parent. *)
Theorem upload_span_ended_on_every_return
  (cfg : Config) (env : Env) (ctx : Ctx)
  (w w' : World) (runTime : Z) (o : ObjectHandle) (err : option error) :
  upload cfg env ctx true w = Ret (runTime, o, err) w' ->
  last_calls 2 (new_calls w w') = [time_Since; span_End (next_span w)] /\
  exported w' =
    {| span_tracer := "go-ups"; span_name := "uploada"; span_parent := ctx;
       span_attrs := [("object", ObjectName o); ("mykey", api cfg)];
       span_ended := true |} :: exported w.
Proof.
  intros H. unfold upload in H.
  walk H; results H; subst; expose_new w w'; norm_heap;
    (split; [reflexivity | assumption]).
Qed.

Lemma upload_span_ended_on_every_return_witness :
  let w' := final (upload spans_flags broken_writer_env None true
                     ready_world) in
  last_calls 2 (new_calls ready_world w') = [time_Since; span_End O].
Proof.
  intros w'.
  assert (H : upload spans_flags broken_writer_env None true ready_world =
              Ret (Duration.Second, sample_object,
                   Some (Errorf "io.CopyN: " (ErrNew "write refused"))) w')
    by (vm_compute; reflexivity).
  exact (proj1 (upload_span_ended_on_every_return _ _ _ _ _ _ _ _ H)).
Defined.

(** The one-second sleep is inside the timed interval. *)
Lemma upload_min_duration
  (cfg : Config) (env : Env) (ctx : Ctx) (withSpan : bool)
  (w w' : World) (runTime : Z) (o : ObjectHandle) (err : option error) :
  upload cfg env ctx withSpan w = Ret (runTime, o, err) w' ->
  Duration.Second <= runTime.
Proof.
  intros H. unfold upload in H.
  destruct withSpan; walk H; results H; subst;
    unfold Duration.sub, Duration.min_int64, Duration.max_int64,
      Duration.Second in *;
    cbn [pause] in *; lia.
Qed.

(** X11: the duration [upload] reports is at least one second on every
    return path, since the one-second sleep lies between the two readings
    of the timer, and it never exceeds the largest [time.Duration]:
    [time.Since] saturates instead of wrapping around. *)
Theorem upload_takes_at_least_a_second
  (cfg : Config) (env : Env) (ctx : Ctx) (withSpan : bool)
  (w w' : World) (runTime : Z) (o : ObjectHandle) (err : option error) :
  upload cfg env ctx withSpan w = Ret (runTime, o, err) w' ->
  Duration.Second <= runTime <= Duration.max_int64.
Proof.
  intros H. split.
  - exact (upload_min_duration _ _ _ _ _ _ _ _ _ H).
  - exact (proj2 (upload_duration_range _ _ _ _ _ _ _ _ _ H)).
Qed.

Lemma upload_takes_at_least_a_second_witness :
  Duration.Second <= Duration.Second <= Duration.max_int64.
Proof.
  assert (H : upload default_flags calm_env None false ready_world =
              Ret (Duration.Second, sample_object, None)
                (final (upload default_flags calm_env None false
                          ready_world)))
    by (vm_compute; reflexivity).
  exact (upload_takes_at_least_a_second _ _ _ _ _ _ _ _ _ H).
Defined.

End UploadFacts.

(** ** The paths of the download phase *)

Module DownloadFacts.
Import TransferBenchmark BenchmarkObs PathObs BenchmarkFacts ClientFacts.
Local Open Scope list_scope.

(** X12: the error [download] returns is the error of the first step
    that failed, behind a prefix: [new reader: ] for opening the reader,
    [io.Copy: ] for either copy, [e.Close: ] for closing the reader; it is
    nil when no step failed. What [r.Close] answers after a failed copy is
    dropped. *)
Theorem download_error_cause
  (cfg : Config) (env : Env) (ctx : Ctx) (o : ObjectHandle) (withSpan : bool)
  (w w' : World) (runTime : Z) (err : option error) :
  download cfg env ctx o withSpan w = Ret (runTime, err) w' ->
  let es := new_events w w' in
  err = match answer_of is_NewRangeReader es with
        | Some (Some e) => Some (Errorf "new reader: " e)
        | _ =>
        match answer_of (is_CopyN_Discard 1024) es with
        | Some (Some e) => Some (Errorf "io.Copy: " e)
        | _ =>
        match answer_of (is_CopyN_Discard (1024 * 1024 - 1024)) es with
        | Some (Some e) => Some (Errorf "io.Copy: " e)
        | _ =>
        match answer_of is_reader_Close es with
        | Some (Some e) => Some (Errorf "e.Close: " e)
        | _ => None
        end
        end
        end
        end.
Proof.
  intros H es. subst es. unfold download in H.
  destruct withSpan; walk H; results H; subst;
    expose_new w w'; reflexivity.
Qed.

Lemma download_error_cause_witness :
  let w' := final (download default_flags no_reader_env None sample_object
                     false ready_world) in
  answer_of is_NewRangeReader (new_events ready_world w')
  = Some (Some (ErrNew "object not found")).
Proof.
  intros w'.
  assert (H : download default_flags no_reader_env None sample_object false
                ready_world =
              Ret (0, Some (Errorf "new reader: " (ErrNew "object not found")))
                w')
    by (vm_compute; reflexivity).
  pose proof (download_error_cause _ _ _ _ _ _ _ _ _ H) as E.
  cbv zeta in E.
  destruct (answer_of is_NewRangeReader (new_events ready_world w'))
    as [[e |] |] eqn:A; [| vm_compute in A; discriminate A ..].
  now injection E as <-.
Defined.

(** X13: every return of [download] has asked for one range reader, and
    has closed it exactly once when it could be opened, after a failed copy
    too; when it could not be opened nothing is closed. *)
Theorem download_closes_reader_once
  (cfg : Config) (env : Env) (ctx : Ctx) (o : ObjectHandle) (withSpan : bool)
  (w w' : World) (runTime : Z) (err : option error) :
  download cfg env ctx o withSpan w = Ret (runTime, err) w' ->
  let cs := new_calls w w' in
  count_calls is_NewRangeReader cs = 1%nat /\
  count_calls is_reader_Close cs =
    match answer_of is_NewRangeReader (new_events w w') with
    | Some None => 1%nat
    | _ => 0%nat
    end.
Proof.
  intros H cs. subst cs. unfold download in H.
  destruct withSpan; walk H; results H; subst;
    expose_new w w'; split; reflexivity.
Qed.

Lemma download_closes_reader_once_witness :
  let w' := final (download default_flags no_reader_env None sample_object
                     false ready_world) in
  count_calls is_reader_Close (new_calls ready_world w') = 0%nat.
Proof.
  intros w'.
  assert (H : download default_flags no_reader_env None sample_object false
                ready_world =
              Ret (0, Some (Errorf "new reader: " (ErrNew "object not found")))
                w')
    by (vm_compute; reflexivity).
  destruct (download_closes_reader_once _ _ _ _ _ _ _ _ _ H) as (_ & E).
  rewrite E. vm_compute. reflexivity.
Defined.

(** X14: when [download] returns the error of opening the reader or of
    one of the two copies, exactly one of the spans it started is never
    ended: the early return skips the [End] call of the user span that is
    open. When it succeeds, or when only [r.Close] fails, every span started
    is ended. Every [End] call exports one snapshot. *)
Theorem download_leaves_span_open_on_failure
  (cfg : Config) (env : Env) (ctx : Ctx) (o : ObjectHandle) (withSpan : bool)
  (w w' : World) (runTime : Z) (err : option error) :
  download cfg env ctx o withSpan w = Ret (runTime, err) w' ->
  let cs := new_calls w w' in
  let all_ended :=
    match err with
    | None => true
    | Some e => String.eqb (error_prefix e) "e.Close: "
    end in
  spans_started cs =
    (if all_ended then spans_ended cs else S (spans_ended cs)) /\
  List.length (exported w') =
    (spans_ended cs + List.length (exported w))%nat.
Proof.
  intros H cs all_ended. subst cs all_ended. unfold download in H.
  destruct withSpan; walk H; results H; subst;
    expose_new w w'; norm_heap;
    (split; [reflexivity |]);
    match goal with
    | Hx : exported w' = _ |- _ => rewrite Hx; reflexivity
    end.
Qed.

Lemma download_leaves_span_open_on_failure_witness :
  let w' := final (download default_flags no_reader_env None sample_object
                     false ready_world) in
  spans_started (new_calls ready_world w') = 1%nat /\
  spans_ended (new_calls ready_world w') = 0%nat.
Proof.
  intros w'.
  assert (H : download default_flags no_reader_env None sample_object false
                ready_world =
              Ret (0, Some (Errorf "new reader: " (ErrNew "object not found")))
                w')
    by (vm_compute; reflexivity).
  destruct (download_leaves_span_open_on_failure _ _ _ _ _ _ _ _ _ H)
    as (E & _).
  cbv zeta in E.
  assert (E0 : spans_ended (new_calls ready_world w') = 0%nat)
    by (vm_compute; reflexivity).
  split; [| exact E0]. rewrite E, E0. reflexivity.
Defined.

(** X15: with [withSpan] set, every return of [download], failures
    included, ends with the two deferred calls in this order: the timer is
    read, then the span [downloads] is ended; its snapshot, with the object
    name and the transport mode as attributes and the context of the caller
    as parent, is the last one exported. *)
Theorem download_wrapper_ended_on_every_return
  (cfg : Config) (env : Env) (ctx : Ctx) (o : ObjectHandle)
  (w w' : World) (runTime : Z) (err : option error) :
  download cfg env ctx o true w = Ret (runTime, err) w' ->
  last_calls 2 (new_calls w w') = [time_Since; span_End (next_span w)] /\
  exists ex,
    exported w' =
      {| span_tracer := "go-ups"; span_name := "downloads";
         span_parent := ctx;
         span_attrs := [("object", ObjectName o); ("mykey", api cfg)];
         span_ended := true |} :: ex.
Proof.
  intros H. unfold download in H.
  walk H; results H; subst; expose_new w w'; norm_heap;
    (split; [reflexivity |]);
    match goal with
    | Hx : exported w' = _ |- _ => rewrite Hx; eexists; reflexivity
    end.
Qed.

Lemma download_wrapper_ended_on_every_return_witness :
  let w' := final (download spans_flags no_reader_env None sample_object
                     true ready_world) in
  last_calls 2 (new_calls ready_world w') = [time_Since; span_End O].
Proof.
  intros w'.
  assert (H : download spans_flags no_reader_env None sample_object true
                ready_world =
              Ret (0, Some (Errorf "new reader: " (ErrNew "object not found")))
                w')
    by (vm_compute; reflexivity).
  exact (proj1 (download_wrapper_ended_on_every_return _ _ _ _ _ _ _ _ H)).
Defined.

(** Both sleeps of a successful download are inside the timed interval. *)
Lemma download_min_duration
  (cfg : Config) (env : Env) (ctx : Ctx) (o : ObjectHandle) (withSpan : bool)
  (w w' : World) (runTime : Z) :
  download cfg env ctx o withSpan w = Ret (runTime, None) w' ->
  105 * Duration.Second <= runTime.
Proof.
  intros H. unfold download in H.
  destruct withSpan; walk H; results H; try discriminate; subst;
    unfold Duration.sub, Duration.min_int64, Duration.max_int64,
      Duration.Second in *;
    cbn [pause] in *; lia.
Qed.

(** X16: a successful [download] reports at least 105 seconds, since its
    two sleeps lie between the two readings of the timer, and never more
    than the largest [time.Duration]. *)
Theorem download_takes_at_least_105_seconds
  (cfg : Config) (env : Env) (ctx : Ctx) (o : ObjectHandle) (withSpan : bool)
  (w w' : World) (runTime : Z) :
  download cfg env ctx o withSpan w = Ret (runTime, None) w' ->
  105 * Duration.Second <= runTime <= Duration.max_int64.
Proof.
  intros H. split.
  - exact (download_min_duration _ _ _ _ _ _ _ _ H).
  - exact (proj2 (download_duration_range _ _ _ _ _ _ _ _ _ H)).
Qed.

Lemma download_takes_at_least_105_seconds_witness :
  105 * Duration.Second <= 105 * Duration.Second <= Duration.max_int64.
Proof.
  assert (H : download default_flags calm_env None sample_object false
                ready_world =
              Ret (105 * Duration.Second, None)
                (final (download default_flags calm_env None sample_object
                          false ready_world)))
    by (vm_compute; reflexivity).
  exact (download_takes_at_least_105_seconds _ _ _ _ _ _ _ _ H).
Defined.

(** X17: [download] never ends the process: whatever the collaborators
    answer and whatever the world, it returns to its caller a duration that
    is not negative and possibly an error. *)
Theorem download_never_ends_the_process
  (cfg : Config) (env : Env) (ctx : Ctx) (o : ObjectHandle) (withSpan : bool)
  (w : World) :
  exists runTime err w',
    download cfg env ctx o withSpan w = Ret (runTime, err) w' /\
    0 <= runTime.
Proof.
  destruct (download_returns cfg env ctx o withSpan w)
    as ((runTime & err) & w' & H).
  exists runTime, err, w'. split; [exact H |].
  exact (proj1 (download_duration_range _ _ _ _ _ _ _ _ _ H)).
Qed.

End DownloadFacts.

(** ** Every run of [main] *)

Module MainFacts.
Import TransferBenchmark BenchmarkObs PathObs BenchmarkFacts ClientFacts.
Import UploadFacts DownloadFacts.
Local Open Scope list_scope.

(** ** What comes first in every run *)

(** A log without [bad] calls, a log after another, a log that starts with
    the [mark]. *)
Lemma only_after_quiet (mark : entry -> bool) (bad : call -> bool)
  (es : list entry) :
  forallb (fun e => negb (bad (what e))) es = true ->
  only_after mark bad es = true.
Proof.
  induction es as [| e es IH]; [reflexivity |].
  cbn [forallb only_after]. intros H. apply andb_prop in H.
  destruct H as (He & Hes). rewrite He, (IH Hes). apply orb_true_r.
Qed.

Lemma only_after_app (mark : entry -> bool) (bad : call -> bool)
  (a b : list entry) :
  forallb (fun e => negb (bad (what e))) a = true ->
  only_after mark bad b = true -> only_after mark bad (a ++ b) = true.
Proof.
  induction a as [| e a IH]; [easy |].
  cbn [forallb only_after app]. intros H Hb. apply andb_prop in H.
  destruct H as (He & Ha). rewrite He, (IH Ha Hb). apply orb_true_r.
Qed.

Lemma only_after_mark (mark : entry -> bool) (bad : call -> bool)
  (e : entry) (b : list entry) :
  mark e = true -> only_after mark bad (e :: b) = true.
Proof. intros H. cbn [only_after]. now rewrite H. Qed.

Lemma forallb_rev {A} (p : A -> bool) (d : list A) :
  forallb p d = true -> forallb p (rev d) = true.
Proof.
  intros F. apply forallb_forall. intros x Hx. apply in_rev in Hx.
  rewrite forallb_forall in F. now apply F.
Qed.

Section Defers.

Variables (env : Env) (mark : entry -> bool) (bad : call -> bool).

Lemma defers_quiet {A} (m : M World A) :
  emits (fun c => negb (bad c)) m -> defers mark bad m.
Proof.
  intros Hm w. destruct (Hm w) as (d & T & F). exists d. split; [exact T |].
  apply only_after_quiet. now apply forallb_rev.
Qed.

Lemma defers_bind_with {A B} (Q : A -> Prop) (m : M World A)
  (k : A -> M World B) :
  (forall w a w', m w = Ret a w' -> Q a) ->
  emits (fun c => negb (bad c)) m ->
  (forall a, Q a -> defers mark bad (k a)) ->
  defers mark bad (bind m k).
Proof.
  intros HQ Hm Hk w. unfold bind.
  destruct (Hm w) as (d1 & T1 & F1).
  destruct (m w) as [a w1 | h w1] eqn:E; cbn [final] in T1.
  - destruct (Hk a (HQ _ _ _ E) w1) as (d2 & T2 & F2).
    exists (d2 ++ d1). split.
    + now rewrite T2, T1, app_assoc.
    + rewrite rev_app_distr. apply only_after_app; [| exact F2].
      now apply forallb_rev.
  - exists d1. split; [exact T1 |].
    apply only_after_quiet. now apply forallb_rev.
Qed.

Lemma defers_bind {A B} (m : M World A) (k : A -> M World B) :
  emits (fun c => negb (bad c)) m ->
  (forall a, defers mark bad (k a)) ->
  defers mark bad (bind m k).
Proof.
  intros Hm Hk. apply (defers_bind_with (fun _ => True)); auto.
Qed.

(** A fallible call: either its answer makes it the [mark], and anything
    may follow, or it is not [bad] and what follows has to keep the
    order. *)
Lemma defers_try {B} (c : call) (k : option error -> M World B) :
  (forall r,
     ((forall t, mark {| at_time := t; what := c; failed := r |} = true) /\
      emits any_call (k r)) \/
     (bad c = false /\ defers mark bad (k r))) ->
  defers mark bad (bind (try_call env c) k).
Proof.
  intros Hk w. unfold bind, try_call. cbv zeta.
  set (r := err_of env (List.length (rtrace w)) c).
  destruct (Hk r) as [(Hm & He) | (Hb & Hd)].
  - destruct (He (record_call env c r w)) as (d & T & _).
    exists (d ++ [{| at_time := clock w; what := c; failed := r |}]).
    split.
    + rewrite T. cbn [record_call rtrace]. now rewrite <- app_assoc.
    + rewrite rev_app_distr. cbn [rev app]. now apply only_after_mark.
  - destruct (Hd (record_call env c r w)) as (d & T & F).
    exists (d ++ [{| at_time := clock w; what := c; failed := r |}]).
    split.
    + rewrite T. cbn [record_call rtrace]. now rewrite <- app_assoc.
    + rewrite rev_app_distr. cbn [rev app only_after what].
      now rewrite Hb, F, orb_true_r.
Qed.

Lemma defers_mark {B} (c : call) (k : M World B) :
  (forall t, mark {| at_time := t; what := c; failed := None |} = true) ->
  emits any_call k ->
  defers mark bad (bind (do_call env c) (fun _ => k)).
Proof.
  intros Hc Hk w. unfold bind, do_call.
  destruct (Hk (record_call env c None w)) as (d & T & _).
  exists (d ++ [{| at_time := clock w; what := c; failed := None |}]).
  split.
  - rewrite T. cbn [record_call rtrace]. now rewrite <- app_assoc.
  - rewrite rev_app_distr. cbn [rev app]. now apply only_after_mark.
Qed.

Lemma defers_assoc {A B C} (m : M World A) (k : A -> M World B)
  (k' : B -> M World C) :
  defers mark bad (bind m (fun a => bind (k a) k')) ->
  defers mark bad (bind (bind m k) k').
Proof.
  intros H w. destruct (H w) as (d & T & F). exists d.
  split; [| exact F]. rewrite <- T. unfold bind. now destruct (m w).
Qed.

Lemma defers_new_events {A} (m : M World A) (w : World) :
  defers mark bad m ->
  only_after mark bad (new_events w (final (m w))) = true.
Proof.
  intros D. destruct (D w) as (d & T & F).
  now rewrite (new_events_intro _ _ d T).
Qed.

End Defers.

Section EmitsMore.

Variables (env : Env) (p : call -> bool).

Lemma emits_assoc {A B C} (m : M World A) (k : A -> M World B)
  (k' : B -> M World C) :
  emits p (bind m (fun a => bind (k a) k')) ->
  emits p (bind (bind m k) k').
Proof.
  intros H w. destruct (H w) as (d & T & F). exists d.
  split; [| exact F]. rewrite <- T. unfold bind. now destruct (m w).
Qed.

(** Nothing runs after [log.Fatalf]. *)
Lemma emits_Fatalf_bind {A B} (format : string) (a : arg)
  (k : A -> M World B) :
  p (log_Output format [a]) = true ->
  emits p (bind (log_Fatalf env format a) k).
Proof.
  intros Hc w. unfold bind, log_Fatalf, do_call, halt_with. cbn [final].
  now apply emits_record.
Qed.

End EmitsMore.

(** [emits p m] for a piece of the program in which a result that is known
    decides what follows. *)
Ltac emits_path :=
  unfold main, getClient, teardown, upload, download,
    log_Fatalln, log_Fatal, log_Println;
  repeat first
    [ match goal with
      | |- emits _ (bind (bind _ _) _) => apply emits_assoc
      | |- emits _ (bind (log_Fatalf _ _ _) _) =>
          apply emits_Fatalf_bind; reflexivity
      | |- emits _ (log_Fatalf _ _ _) => unfold log_Fatalf
      end
    | emits_step ].

(** The steps of [main] up to the call of [upload]. *)
Ltac defers_prelude env :=
  unfold main; cbv zeta;
  apply defers_bind; [emits_auto | intros ?];
  apply defers_bind; [emits_auto | intros _];
  apply defers_bind; [emits_auto | intros _];
  apply (defers_bind_with _ _
           (fun close => close = teardown env context_Background));
  [ intros ? ? ? HT; exact (enableTracing_close _ _ _ _ _ HT)
  | emits_auto
  | intros ? -> ];
  apply defers_bind; [emits_auto | intros ?].

(** X21: in every run of [main], returning or not, none of the deferred
    calls (stopping the profile, closing its file, flushing and shutting
    down the tracer provider) is made before the total is printed. So a run
    that any [log.Fatal*] ends before that leaves the profile unstopped,
    its file unclosed and the spans unflushed. *)
Theorem main_cleans_up_only_after_total
  (cfg : Config) (env : Env) (w : World) :
  only_after (on_call is_fmt_Printf) is_cleanup
    (new_events w (final (main cfg env w))) = true.
Proof.
  apply defers_new_events.
  defers_prelude env.
  apply defers_bind; [emits_auto | intros [[timetakenU o] err]].
  cbv beta iota.
  apply defers_bind; [emits_auto | intros _].
  apply defers_bind; [emits_auto | intros [timetakenD err']].
  cbv beta iota.
  apply defers_bind; [emits_auto | intros _].
  apply defers_mark; [intro; reflexivity |].
  match goal with
  | |- emits _ (bind (if ?profiling then _ else _) _) => destruct profiling
  end; emits_auto.
Qed.

(** X22: in every run of [main] no span is started, given attributes or
    ended before [otel.SetTracerProvider] has been called. *)
Theorem main_starts_spans_after_provider
  (cfg : Config) (env : Env) (w : World) :
  only_after (on_call is_SetTracerProvider) is_span_call
    (new_events w (final (main cfg env w))) = true.
Proof.
  apply defers_new_events.
  unfold main. cbv zeta.
  apply defers_bind; [emits_auto | intros c].
  apply defers_bind; [emits_auto | intros _].
  apply defers_bind; [emits_auto | intros _].
  unfold enableTracing.
  apply defers_assoc. apply defers_bind; [emits_auto | intros ?].
  apply defers_assoc. apply defers_bind; [emits_auto | intros _].
  apply defers_assoc. apply defers_bind; [emits_auto | intros ?].
  apply defers_assoc. apply defers_bind; [emits_auto | intros _].
  apply defers_assoc. apply defers_bind; [emits_auto | intros _].
  apply defers_assoc. apply defers_mark; [intro; reflexivity |].
  emits_auto.
Qed.

(** The steps of [upload] up to the copy, inside [main]. *)
Ltac defers_upload :=
  unfold upload; cbv zeta;
  apply defers_assoc; apply defers_bind; [emits_auto | intros ?];
  apply defers_assoc; apply defers_bind; [emits_auto | intros ?];
  apply defers_assoc; apply defers_bind; [emits_auto | intros [? ?]];
  cbv beta iota;
  apply defers_assoc; apply defers_bind; [emits_auto | intros ?];
  apply defers_assoc;
  apply defers_assoc; apply defers_bind; [emits_auto | intros _];
  apply defers_assoc; apply defers_bind; [emits_auto | intros _];
  apply defers_assoc.

(** X26: in every run of [main], returning or not, the range reader on
    the object is opened only after [io.CopyN] into the write stream has
    answered nil and only after [w.Close] has answered nil: the download
    phase never starts unless the upload has succeeded. *)
Theorem main_reads_only_after_upload
  (cfg : Config) (env : Env) (w : World) :
  let es := new_events w (final (main cfg env w)) in
  only_after (answered_nil is_CopyN_rand) is_NewRangeReader es = true /\
  only_after (answered_nil is_writer_Close) is_NewRangeReader es = true.
Proof.
  split; apply defers_new_events; defers_prelude env; defers_upload.
  - apply defers_try. intros [e |].
    + right. split; [reflexivity |]. apply defers_quiet. emits_path.
    + left. split; [intro; reflexivity |]. emits_path.
  - apply defers_bind; [emits_auto | intros [e |]];
      apply defers_assoc; apply defers_try; intros [e' |];
      solve [ right; split; [reflexivity |]; apply defers_quiet; emits_path
            | left; split; [intro; reflexivity |]; emits_path ].
Qed.

(** ** The exit status *)

Section Exits.

Variables (env : Env) (code : Z).









End Exits.





(** X20: without [-cpuprofile], no run of [main] creates a profile file
    or starts, stops or closes a profile. *)
Theorem main_profiles_only_on_request
  (cfg : Config) (env : Env) (w : World) :
  cpuprofile cfg = "" ->
  forallb not_profile (new_calls w (final (main cfg env w))) = true.
Proof.
  intros Hflag. apply emits_new_calls. unfold main. rewrite Hflag.
  emits_auto.
Qed.

Lemma main_profiles_only_on_request_witness :
  forallb not_profile
    (new_calls init_world (final (main default_flags calm_env init_world)))
  = true.
Proof.
  exact (main_profiles_only_on_request default_flags calm_env init_world
           eq_refl).
Defined.


(** ** The profile *)








(** ** The sleeps in the printed total *)




End MainFacts.

(** * Listing a bucket *)

Module ListingFacts.

Import TransferBenchmark BenchmarkObs PathObs ObjectListing ListingObs.
Import BenchmarkFacts.
Local Open Scope list_scope.

Section Loop.

Variables (ienv : IterEnv) (it : ObjectIterator) (bucket : string).

Lemma loop_frame_refl (w : World) : loop_frame w w.
Proof. split; solve [reflexivity | lia]. Qed.

Lemma loop_frame_advance (d : N) (w w1 : World) :
  loop_frame (advance (Z.of_N d) w) w1 -> loop_frame w w1.
Proof.
  intros [Hc Ht Hn Hs He Hl]. cbn in *. split; solve [assumption | lia].
Qed.

Lemma loop_stops (k : nat) :
  forall (fuel : nat) (lw : ListWorld) (r : next_error),
    (k < fuel)%nat ->
    (forall i, (i < k)%nat ->
               next_of ienv (List.length (fetches lw) + i) = NextNil) ->
    next_of ienv (List.length (fetches lw) + k) = r ->
    r <> NextNil ->
    exists lw',
      listObjs_loop ienv fuel it bucket lw =
        Ret (Some (listing_error ienv bucket r)) lw' /\
      List.length (fetches lw') = (List.length (fetches lw) + S k)%nat /\
      (exists a, fetches lw' =
         {| fetch_time := a; fetch_from := it; fetch_answer := r |}
         :: skipn 1 (fetches lw')) /\
      loop_frame (base lw) (base lw').
Proof.
  induction k as [| k IH]; intros fuel lw r Hfuel Hnil Hr Hne;
    (destruct fuel as [| fuel]; [lia |]);
    cbn [listObjs_loop]; unfold bind, it_Next.
  - rewrite Nat.add_0_r in Hr. rewrite Hr.
    eexists. split; [destruct r; [congruence | reflexivity ..] |].
    cbn. split; [lia |]. split; [eexists; reflexivity |].
    apply (loop_frame_advance (next_lat ienv (List.length (fetches lw)))).
    destruct r; try congruence; apply loop_frame_refl.
  - assert (H0 : next_of ienv (List.length (fetches lw)) = NextNil)
      by (rewrite <- (Nat.add_0_r (List.length (fetches lw)));
          apply Hnil; lia).
    rewrite H0. cbv beta iota zeta.
    match goal with
    | |- exists lw', listObjs_loop _ _ _ _ ?lw1 = _ /\ _ =>
        destruct (IH fuel lw1 r) as (lw' & Hrun & Hlen & Hlast & Hframe)
    end.
    + lia.
    + intros i Hi. cbn [fetches List.length].
      replace (S (List.length (fetches lw)) + i)%nat
        with (List.length (fetches lw) + S i)%nat by lia.
      apply Hnil. lia.
    + cbn [fetches List.length].
      now replace (S (List.length (fetches lw)) + k)%nat
        with (List.length (fetches lw) + S k)%nat by lia.
    + exact Hne.
    + exists lw'. split; [exact Hrun |]. cbn [fetches List.length base] in *.
      split; [lia |]. split; [exact Hlast |].
      exact (loop_frame_advance _ _ _ Hframe).
Qed.

Lemma loop_runs (fuel : nat) :
  forall lw : ListWorld,
    (forall i, (i < fuel)%nat ->
               next_of ienv (List.length (fetches lw) + i) = NextNil) ->
    exists lw',
      listObjs_loop ienv fuel it bucket lw = Ret None lw' /\
      List.length (fetches lw') = (List.length (fetches lw) + fuel)%nat /\
      loop_frame (base lw) (base lw').
Proof.
  induction fuel as [| fuel IH]; intros lw Hnil; cbn [listObjs_loop].
  - exists lw. split; [reflexivity |]. split; [lia | apply loop_frame_refl].
  - unfold bind, it_Next.
    assert (H0 : next_of ienv (List.length (fetches lw)) = NextNil)
      by (rewrite <- (Nat.add_0_r (List.length (fetches lw)));
          apply Hnil; lia).
    rewrite H0. cbv beta iota zeta.
    match goal with
    | |- exists lw', listObjs_loop _ _ _ _ ?lw1 = _ /\ _ =>
        destruct (IH lw1) as (lw' & Hrun & Hlen & Hframe)
    end.
    + intros i Hi. cbn [fetches List.length].
      replace (S (List.length (fetches lw)) + i)%nat
        with (List.length (fetches lw) + S i)%nat by lia.
      apply Hnil. lia.
    + exists lw'. split; [exact Hrun |]. cbn [fetches List.length base] in *.
      split; [lia |]. exact (loop_frame_advance _ _ _ Hframe).
Qed.

End Loop.

(** X24: with a client in the package-level variable, [listObjs] calls
    [it.Next] until the first answer that is not nil and then returns at
    once, whatever the bound on the loop beyond that: [iterator.Done] gives
    a nil error, any other error is returned behind the prefix
    [Bucket(<quoted bucket>).Objects: ]. The duration reported is not
    negative, and the deferred calls have run: the timer is read and the
    span [listobjsa], when there is one, is ended. *)
Theorem listObjs_ends_at_first_answer
  (cfg : Config) (env : Env) (ienv : IterEnv) (ctx : Ctx) (withSpan : bool)
  (lw : ListWorld) (c : Client) (k fuel : nat) (r : next_error) :
  client (base lw) = Some c ->
  (forall i, (i < k)%nat ->
             next_of ienv (List.length (fetches lw) + i) = NextNil) ->
  next_of ienv (List.length (fetches lw) + k) = r ->
  r <> NextNil ->
  (k < fuel)%nat ->
  exists runTime lw',
    listObjs cfg env ienv fuel ctx withSpan lw =
      Ret (Some (runTime, listing_error ienv (bucketFlag cfg) r)) lw' /\
    List.length (fetches lw') = (List.length (fetches lw) + S k)%nat /\
    0 <= runTime /\
    new_calls (base lw) (base lw') =
      let n := next_span (base lw) in
      if withSpan then
        [tracer_Start ctx "go-another" "listobjsa" n;
         span_SetAttributes n [("mykey", api cfg)];
         time_Now; time_Since; span_End n]
      else [time_Now; time_Since].
Proof.
  intros Hc Hnil Hr Hne Hfuel.
  unfold listObjs, lift, bind.
  destruct withSpan;
    cbn -[listObjs_loop new_calls]; rewrite Hc; cbn -[listObjs_loop new_calls];
    match goal with
    | |- context [listObjs_loop _ _ ?it ?b ?lw1] =>
        destruct (loop_stops ienv it b k fuel lw1 r Hfuel Hnil Hr Hne)
          as (lw' & Hrun & Hlen & _ & [Fc Ft Fn Fs Fe Fl])
    end;
    rewrite Hrun; cbn -[new_calls] in *;
    eexists; eexists; (split; [reflexivity |]);
    (split; [exact Hlen |]);
    (split;
     [unfold Duration.sub, Duration.min_int64, Duration.max_int64; lia |]).
  - erewrite new_calls_intro; [| cbn; rewrite Ft; cbn;
      instantiate (1 := [_; _; _; _; _]); reflexivity ].
    reflexivity.
  - erewrite new_calls_intro; [| cbn; rewrite Ft; cbn;
      instantiate (1 := [_; _]); reflexivity ].
    reflexivity.
Qed.

Lemma listObjs_ends_at_first_answer_witness :
  exists runTime lw',
    listObjs default_flags calm_env broken_listing 10 None true ready_listing
      = Ret (Some (runTime,
                   Some (Errorf "Bucket(mhall-golang-test).Objects: "
                           (ErrNew "permission denied")))) lw' /\
    List.length (fetches lw') = 2%nat.
Proof.
  destruct (listObjs_ends_at_first_answer default_flags calm_env
              broken_listing None true ready_listing ClientHTTP2 1 10
              (NextFailed (ErrNew "permission denied")) eq_refl)
    as (runTime & lw' & H & Hlen & _).
  - intros i Hi. destruct i as [| i]; [reflexivity | lia].
  - reflexivity.
  - discriminate.
  - lia.
  - exists runTime, lw'. split; assumption.
Defined.

(** X25: the loop of [listObjs] has no bound of its own: as long as
    [it.Next] answers objects it goes on, and after any number of them it
    has made that many [it.Next] calls and has neither read the timer nor
    ended its span. *)
Theorem listObjs_runs_while_objects_come
  (cfg : Config) (env : Env) (ienv : IterEnv) (ctx : Ctx) (withSpan : bool)
  (lw : ListWorld) (c : Client) (fuel : nat) :
  client (base lw) = Some c ->
  (forall i, (i < fuel)%nat ->
             next_of ienv (List.length (fetches lw) + i) = NextNil) ->
  exists lw',
    listObjs cfg env ienv fuel ctx withSpan lw = Ret None lw' /\
    List.length (fetches lw') = (List.length (fetches lw) + fuel)%nat /\
    new_calls (base lw) (base lw') =
      let n := next_span (base lw) in
      if withSpan then
        [tracer_Start ctx "go-another" "listobjsa" n;
         span_SetAttributes n [("mykey", api cfg)];
         time_Now]
      else [time_Now].
Proof.
  intros Hc Hnil.
  unfold listObjs, lift, bind.
  destruct withSpan;
    cbn -[listObjs_loop new_calls]; rewrite Hc; cbn -[listObjs_loop new_calls];
    match goal with
    | |- context [listObjs_loop _ _ ?it ?b ?lw1] =>
        destruct (loop_runs ienv it b fuel lw1 Hnil)
          as (lw' & Hrun & Hlen & [Fc Ft Fn Fs Fe Fl])
    end;
    rewrite Hrun; cbn -[new_calls] in *;
    eexists; (split; [reflexivity |]);
    (split; [exact Hlen |]).
  - erewrite new_calls_intro;
      [| rewrite Ft; instantiate (1 := [_; _; _]); reflexivity ].
    reflexivity.
  - erewrite new_calls_intro;
      [| rewrite Ft; instantiate (1 := [_]); reflexivity ].
    reflexivity.
Qed.

Lemma listObjs_runs_while_objects_come_witness :
  exists lw',
    listObjs default_flags calm_env endless_listing 7 None false ready_listing
      = Ret None lw' /\
    List.length (fetches lw') = 7%nat.
Proof.
  destruct (listObjs_runs_while_objects_come default_flags calm_env
              endless_listing None false ready_listing ClientHTTP2 7 eq_refl)
    as (lw' & H & Hlen & _).
  - intros i _. reflexivity.
  - exists lw'. split; assumption.
Defined.

End ListingFacts.
